(** * A token-bucket rate limiter (package ratelimiter), embedded in Rocq.

    The development follows [limiter.go] and [fakeclock.go]:

    - Go's [int] and [int64] are 64-bit two's-complement integers (the
      model fixes the 64-bit platforms, where [int] and [int64] coincide);
      they are values of [Z] and every arithmetic operation of the source
      is followed by its wrap-around [wrap64];
    - [time.Duration] is an [int64] count of nanoseconds, [time.Time] is an
      instant in nanoseconds on one time line, and [Time.Sub] saturates at
      the extreme durations as package [time] documents;
    - a run-time panic (integer division by zero) is an explicit outcome;
    - the [clocker] interface is a type class, [fakeclock] an instance;
    - the [select] of [Acquire] is resolved by a schedule, the list of the
      cases that win the successive races. *)

From Stdlib Require Import ZArith List Bool Lia.
Import ListNotations.
Local Open Scope Z_scope.

(** ** Machine integers *)

Module Int64.

Definition half : Z := 2 ^ 63.
Definition modulus : Z := 2 ^ 64.
Definition maxInt : Z := half - 1.
Definition minInt : Z := - half.

(** The value a 64-bit signed register holds after computing [z]. *)
Definition wrap64 (z : Z) : Z := (z + half) mod modulus - half.

Definition inRange (z : Z) : Prop := minInt <= z <= maxInt.

Definition add (x y : Z) : Z := wrap64 (x + y).
Definition sub (x y : Z) : Z := wrap64 (x - y).
Definition mul (x y : Z) : Z := wrap64 (x * y).

(** Go's [/] on integers: truncation towards zero, a run-time panic on a
    zero divisor ([None]), and [minInt / -1 = minInt] by wrap-around. *)
Definition div (x y : Z) : option Z :=
  if y =? 0 then None else Some (wrap64 (Z.quot x y)).

End Int64.

(** ** Package time *)

Definition Duration : Type := Z.
Definition Time : Type := Z.

Definition Second : Duration := 1000000000.
Definition Minute : Duration := 60 * Second.
Definition Hour : Duration := 60 * Minute.

(** [t.Sub(u)]: the duration [t - u], or the maximum (minimum) duration
    when the difference exceeds it. *)
Definition Sub (t u : Time) : Duration :=
  Z.max Int64.minInt (Z.min Int64.maxInt (t - u)).

(** [t.Add(d)]. *)
Definition Add (t : Time) (d : Duration) : Time := t + d.

(** [d.Nanoseconds()]. *)
Definition Nanoseconds (d : Duration) : Z := d.

(** ** Package context *)

(** The two reasons [ctx.Err()] reports. *)
Inductive error : Type :=
| Canceled
| DeadlineExceeded.

(** A context is represented by what [ctx.Err()] returns: [None] (nil)
    while [ctx.Done()] is open, the reason once it is closed. *)
Record Context : Type := mkContext { Err : option error }.

Definition Background : Context := mkContext None.

(** Cancelling a context closes [Done] with the given reason; a context that
    is already done keeps its first reason. *)
Definition cancelWith (e : error) (ctx : Context) : Context :=
  match Err ctx with
  | Some _ => ctx
  | None => mkContext (Some e)
  end.

(** ** The clocker interface and its fake implementation *)

(** [Now] returns the reading and the clock after the call; [After d]
    returns the clock after the timer of duration [d] has been created (the
    channel it returns fires when the schedule says so). *)
Class clocker (C : Type) : Type := {
  Now : C -> Time * C;
  After : Duration -> C -> C
}.

Record fakeclock : Type := mkFakeclock {
  nowCalled : bool;
  afterCalled : bool;
  fakeNow : Time
}.

Definition newFakeClock (now : Time) : fakeclock :=
  mkFakeclock false false now.

Definition fakeclock_Now (fc : fakeclock) : Time * fakeclock :=
  (fakeNow fc, mkFakeclock true (afterCalled fc) (fakeNow fc)).

Definition fakeclock_After (d : Duration) (fc : fakeclock) : fakeclock :=
  mkFakeclock (nowCalled fc) true (Add (fakeNow fc) d).

Definition Advance (d : Duration) (fc : fakeclock) : Time * fakeclock :=
  (Add (fakeNow fc) d,
   mkFakeclock (nowCalled fc) (afterCalled fc) (Add (fakeNow fc) d)).

#[export] Instance fakeclock_clocker : clocker fakeclock := {
  Now := fakeclock_Now;
  After := fakeclock_After
}.

(** The package clock reads the system time, an input of the program: the
    model is a clock that hands out the readings it is given, one per call,
    and repeats the last one when they are used up. *)
Record pkgclock : Type := mkPkgclock {
  current : Time;
  upcoming : list Time
}.

Definition pkgclock_Now (p : pkgclock) : Time * pkgclock :=
  match upcoming p with
  | [] => (current p, p)
  | t :: ts => (t, mkPkgclock t ts)
  end.

#[export] Instance pkgclock_clocker : clocker pkgclock := {
  Now := pkgclock_Now;
  After := fun _ p => p
}.

(** ** The limiter *)

Record Limiter : Type := mkLimiter {
  lastTime : Time;
  tokens : Z;
  window : Duration;
  rate : Z
}.

Definition set_lastTime (t : Time) (l : Limiter) : Limiter :=
  mkLimiter t (tokens l) (window l) (rate l).

Definition set_tokens (n : Z) (l : Limiter) : Limiter :=
  mkLimiter (lastTime l) n (window l) (rate l).

(** The limiter that [New] builds from the reading of the clock. *)
Definition NewAt (rate : Z) (window : Duration) (now : Time) : Limiter :=
  mkLimiter now rate window rate.

Definition New {C} `{clocker C} (rate : Z) (window : Duration) (c : C)
  : Limiter * C :=
  let (now, c') := Now c in
  (NewAt rate window now, c').

(** The bucket after lines 69-75 of [tryAcquire]: the elapsed time is
    measured, [lastTime] is moved to [now], and the tokens that accrued are
    put in the bucket, up to [rate]. [None] is the division panic. *)
Definition refill (now : Time) (l : Limiter) : option Limiter :=
  let elapsed := Sub now (lastTime l) in
  let l := set_lastTime now l in
  match Int64.div (Int64.mul (Nanoseconds elapsed) (rate l))
                  (Nanoseconds (window l)) with
  | None => None
  | Some n =>
      let l := set_tokens (Int64.add (tokens l) n) l in
      Some (set_tokens (Z.min (tokens l) (rate l)) l)
  end.

(** The body of [tryAcquire] at the reading [now]: the limiter it leaves
    and what it returns ([None] when it panics, in which case only
    [lastTime] has been written). *)
Definition tryAcquireAt (now : Time) (l : Limiter) : option bool * Limiter :=
  match refill now l with
  | None => (None, set_lastTime now l)
  | Some l =>
      if tokens l <=? 0 then (Some false, l)
      else (Some true, set_tokens (Int64.sub (tokens l) 1) l)
  end.

Definition tryAcquire {C} `{clocker C} (l : Limiter) (c : C)
  : option bool * Limiter * C :=
  let (now, c') := Now c in
  let (r, l') := tryAcquireAt now l in
  (r, l', c').

(** ** Acquire *)

(** The case of the [select] that proceeds: [ctx.Done()] (closed by a
    cancellation with the given reason, unless it was closed before), or the
    channel of the timer. *)
Inductive selected : Type :=
| ctxDone (reason : error)
| timerFired.

(** What an observer sees of a call of [Acquire]. *)
Inductive event : Type :=
| evTry (ok : bool) (after : Limiter)
| evAfter (d : Duration)
| evDone
| evTimer.

Inductive status : Type :=
| Returned (err : option error)
| Blocked
| Panicked.

Record outcome (C : Type) : Type := mkOutcome {
  result : status;
  limiter : Limiter;
  clockOf : C;
  context : Context;
  trace : list event
}.
Arguments mkOutcome {C}.
Arguments result {C}.
Arguments limiter {C}.
Arguments clockOf {C}.
Arguments context {C}.
Arguments trace {C}.

Definition emit {C} (ev : event) (o : outcome C) : outcome C :=
  mkOutcome (result o) (limiter o) (clockOf o) (context o) (ev :: trace o).

(** The loop of [Acquire]. Each round makes one attempt; after a failed
    attempt the operands of the [select] are evaluated (the wait interval,
    then [clock.After]) and the head of the schedule says which case
    proceeds. With no schedule left the call stays blocked in the
    [select]. *)
Fixpoint Acquire {C} `{clocker C} (l : Limiter) (c : C) (ctx : Context)
    (sched : list selected) : outcome C :=
  let '(ok, l, c) := tryAcquire l c in
  match ok with
  | None => mkOutcome Panicked l c ctx []
  | Some true => mkOutcome (Returned None) l c ctx [evTry true l]
  | Some false =>
      emit (evTry false l)
        match Int64.div (window l) (rate l) with
        | None => mkOutcome Panicked l c ctx []
        | Some d =>
            let c := After d c in
            emit (evAfter d)
              match sched with
              | [] => mkOutcome Blocked l c ctx []
              | ctxDone e :: _ =>
                  let ctx := cancelWith e ctx in
                  mkOutcome (Returned (Err ctx)) l c ctx [evDone]
              | timerFired :: sched =>
                  emit evTimer (Acquire l c ctx sched)
              end
        end
  end.

(** Successive calls of [Acquire] by one caller, each with its context and
    its schedule; a call that does not return ends the sequence. *)
Fixpoint AcquireMany {C} `{clocker C} (calls : list (Context * list selected))
    (l : Limiter) (c : C) : list (outcome C) :=
  match calls with
  | [] => []
  | (ctx, sched) :: calls =>
      let o := Acquire l c ctx sched in
      match result o with
      | Returned _ => o :: AcquireMany calls (limiter o) (clockOf o)
      | _ => [o]
      end
  end.

(** ** Runs of attempts *)

(** The limiter after one attempt at the reading [now]. *)
Definition attempt (now : Time) (l : Limiter) : Limiter :=
  snd (tryAcquireAt now l).

(** The limiter after the attempts made at the readings [nows], in order. *)
Fixpoint run (nows : list Time) (l : Limiter) : Limiter :=
  match nows with
  | [] => l
  | now :: nows => run nows (attempt now l)
  end.

(** How many of the attempts made at the readings [nows] are granted. *)
Fixpoint grants (nows : list Time) (l : Limiter) : nat :=
  match nows with
  | [] => O
  | now :: nows =>
      match fst (tryAcquireAt now l) with
      | Some true => S (grants nows (attempt now l))
      | _ => grants nows (attempt now l)
      end
  end.

(** The readings of the clock at the attempts of a trace. *)
Fixpoint readings (tr : list event) : list Time :=
  match tr with
  | [] => []
  | evTry _ l :: tr => lastTime l :: readings tr
  | _ :: tr => readings tr
  end.

(** ** Predicates of the specification *)

(** The bucket holds between zero and [rate] tokens. *)
Definition bucket_ok (l : Limiter) : Prop := 0 <= tokens l <= rate l.

(** The configuration the constructor expects. *)
Definition configured (l : Limiter) : Prop :=
  1 <= rate l <= Int64.maxInt /\ 0 < window l.

(** The tokens that accrue over [elapsed], in exact arithmetic. *)
Definition accrued (elapsed : Z) (l : Limiter) : Z :=
  (elapsed * rate l) / window l.

(** The attempt at [now] is made with a clock that did not go back, and
    neither the product nor the sum of the refill leaves the 64 bits. *)
Definition noOverflow (now : Time) (l : Limiter) : Prop :=
  lastTime l <= now /\
  (now - lastTime l) * rate l <= Int64.maxInt /\
  tokens l + accrued (now - lastTime l) l <= Int64.maxInt.

(** [noOverflow] at every attempt of a run. *)
Fixpoint steady (nows : list Time) (l : Limiter) : Prop :=
  match nows with
  | [] => True
  | now :: nows => noOverflow now l /\ steady nows (attempt now l)
  end.

(** The limiters that a sequence of operations produces: a construction
    with [r] and [w], then attempts and calls of [Acquire], every attempt
    made under [noOverflow]. *)
Inductive reachable (r : Z) (w : Duration) : Limiter -> Prop :=
| reach_New (t0 : Time) : reachable r w (NewAt r w t0)
| reach_tryAcquire (l : Limiter) (now : Time) :
    reachable r w l -> noOverflow now l -> reachable r w (attempt now l)
| reach_Acquire (C : Type) (K : clocker C) (l : Limiter) (c : C)
    (ctx : Context) (sched : list selected) :
    reachable r w l ->
    steady (readings (trace (Acquire l c ctx sched))) l ->
    reachable r w (limiter (Acquire l c ctx sched)).

(** ** Observations on traces and on the fake clock *)

(** The total of the durations passed to [clock.After] in a trace. *)
Fixpoint waited (tr : list event) : Duration :=
  match tr with
  | [] => 0
  | evAfter d :: tr => d + waited tr
  | _ :: tr => waited tr
  end.

(** Whether [clock.After] occurs in a trace. *)
Fixpoint hasWait (tr : list event) : bool :=
  match tr with
  | [] => false
  | evAfter _ :: _ => true
  | _ :: tr => hasWait tr
  end.

(** How many attempts of a trace took a token. *)
Fixpoint takes (tr : list event) : nat :=
  match tr with
  | [] => O
  | evTry true _ :: tr => S (takes tr)
  | _ :: tr => takes tr
  end.

(** The calls a test makes on the fake clock. *)
Inductive fakecall : Type :=
| callNow
| callAfter (d : Duration)
| callAdvance (d : Duration).

Definition call (fc : fakeclock) (op : fakecall) : fakeclock :=
  match op with
  | callNow => snd (fakeclock_Now fc)
  | callAfter d => fakeclock_After d fc
  | callAdvance d => snd (Advance d fc)
  end.

Definition drive (ops : list fakecall) (fc : fakeclock) : fakeclock :=
  fold_left call ops fc.

(** By how much a call moves the fake time. *)
Definition moves (op : fakecall) : Duration :=
  match op with
  | callNow => 0
  | callAfter d => d
  | callAdvance d => d
  end.

Definition isNow (op : fakecall) : bool :=
  match op with callNow => true | _ => false end.

Definition isAfter (op : fakecall) : bool :=
  match op with callAfter _ => true | _ => false end.

Fixpoint total (ds : list Duration) : Duration :=
  match ds with
  | [] => 0
  | d :: ds => d + total ds
  end.

(** * Properties *)

(** ** Arithmetic of the 64-bit integers *)

Ltac int64_consts :=
  unfold Int64.inRange, Int64.maxInt, Int64.minInt, Int64.modulus, Int64.half in *;
  change (2 ^ 63) with 9223372036854775808 in *;
  change (2 ^ 64) with 18446744073709551616 in *.

Lemma wrap64_inRange (z : Z) : Int64.inRange (Int64.wrap64 z).
Proof.
  unfold Int64.wrap64.
  pose proof (Z.mod_pos_bound (z + Int64.half) Int64.modulus) as B.
  int64_consts. lia.
Qed.

Lemma wrap64_small (z : Z) : Int64.inRange z -> Int64.wrap64 z = z.
Proof.
  intros R. unfold Int64.wrap64.
  rewrite Z.mod_small; int64_consts; lia.
Qed.

Lemma div_nonzero (x y : Z) :
  y <> 0 -> Int64.div x y = Some (Int64.wrap64 (Z.quot x y)).
Proof.
  intros Hy. unfold Int64.div.
  destruct (Z.eqb_spec y 0); [contradiction | reflexivity].
Qed.

Lemma div_zero (x : Z) : Int64.div x 0 = None.
Proof. reflexivity. Qed.

Lemma div_None (x y : Z) : Int64.div x y = None <-> y = 0.
Proof.
  unfold Int64.div. destruct (Z.eqb_spec y 0); split; congruence.
Qed.

(** On a non-negative dividend and a positive divisor Go's quotient is the
    floor. *)
Lemma div_floor (x y : Z) :
  0 <= x <= Int64.maxInt -> 0 < y -> Int64.div x y = Some (x / y).
Proof.
  intros Hx Hy. rewrite div_nonzero by lia.
  rewrite Z.quot_div_nonneg by lia.
  rewrite wrap64_small; [reflexivity|].
  pose proof (Z.div_pos x y ltac:(lia) Hy).
  assert (x / y <= x) by (apply Z.div_le_upper_bound; nia).
  int64_consts. lia.
Qed.

Lemma Sub_exact (t u : Time) :
  Int64.minInt <= t - u <= Int64.maxInt -> Sub t u = t - u.
Proof. unfold Sub. lia. Qed.

Lemma accrued_nonneg (e : Z) (l : Limiter) :
  0 <= e -> 0 <= rate l -> 0 < window l -> 0 <= accrued e l.
Proof.
  intros. unfold accrued. apply Z.div_pos; nia.
Qed.

(** ** The fields an attempt writes *)

Lemma refill_fields (now : Time) (l l' : Limiter) :
  refill now l = Some l' ->
  lastTime l' = now /\ window l' = window l /\ rate l' = rate l /\
  tokens l' <= rate l /\ tokens l' <= Int64.maxInt.
Proof.
  unfold refill. cbn.
  destruct (Int64.div _ _) as [n|]; [|discriminate].
  intros E. injection E as <-.
  pose proof (wrap64_inRange (tokens l + n)) as R.
  unfold Int64.add, set_tokens, set_lastTime; cbn [lastTime tokens window rate].
  int64_consts. repeat split; lia.
Qed.

Lemma tryAcquireAt_frame (now : Time) (l : Limiter) :
  rate (attempt now l) = rate l /\
  window (attempt now l) = window l /\
  lastTime (attempt now l) = now.
Proof.
  unfold attempt, tryAcquireAt.
  destruct (refill now l) as [l'|] eqn:E; [|cbn; auto].
  apply refill_fields in E. destruct E as (? & ? & ? & _).
  destruct (tokens l' <=? 0); cbn; auto.
Qed.

Lemma tryAcquireAt_upper (now : Time) (l : Limiter) :
  fst (tryAcquireAt now l) <> None -> tokens (attempt now l) <= rate l.
Proof.
  unfold attempt, tryAcquireAt.
  destruct (refill now l) as [l'|] eqn:E; [|cbn; congruence].
  apply refill_fields in E. destruct E as (_ & _ & _ & U & M). intros _.
  destruct (Z.leb_spec (tokens l') 0); cbn; [lia|].
  unfold Int64.sub. rewrite wrap64_small; [lia|].
  int64_consts. lia.
Qed.

(** ** The refill in exact arithmetic *)

Lemma noOverflow_elapsed (now : Time) (l : Limiter) :
  1 <= rate l -> noOverflow now l ->
  Sub now (lastTime l) = now - lastTime l /\
  0 <= (now - lastTime l) * rate l <= Int64.maxInt.
Proof.
  intros Hr (Hmono & Hprod & _).
  assert (0 <= now - lastTime l) by lia.
  assert (now - lastTime l <= (now - lastTime l) * rate l) by nia.
  split; [apply Sub_exact; int64_consts; lia | nia].
Qed.

(** Within the 64 bits the bucket after the refill holds the old tokens
    plus the floor of [elapsed * rate / window], cut at [rate]. *)
Lemma refill_exact (now : Time) (l : Limiter) :
  configured l -> 0 <= tokens l -> noOverflow now l ->
  refill now l =
    Some (mkLimiter now
            (Z.min (tokens l + accrued (now - lastTime l) l) (rate l))
            (window l) (rate l)).
Proof.
  intros ((Hr & Hmax) & Hw) Ht Hno.
  destruct (noOverflow_elapsed now l Hr Hno) as (Hsub & Hprod).
  destruct Hno as (Hmono & _ & Hsum).
  pose proof (accrued_nonneg (now - lastTime l) l ltac:(lia) ltac:(lia) Hw) as Hacc.
  unfold refill, Nanoseconds, set_lastTime, set_tokens.
  cbn [lastTime tokens window rate].
  rewrite Hsub. unfold Int64.mul.
  rewrite (wrap64_small ((now - lastTime l) * rate l))
    by (int64_consts; lia).
  rewrite div_floor by assumption.
  fold (accrued (now - lastTime l) l).
  unfold Int64.add. rewrite wrap64_small by (int64_consts; lia).
  reflexivity.
Qed.

Lemma tryAcquireAt_exact (now : Time) (l : Limiter) :
  configured l -> 0 <= tokens l -> noOverflow now l ->
  let n := Z.min (tokens l + accrued (now - lastTime l) l) (rate l) in
  tryAcquireAt now l =
    if n <=? 0 then (Some false, mkLimiter now n (window l) (rate l))
    else (Some true, mkLimiter now (n - 1) (window l) (rate l)).
Proof.
  intros Hc Ht Hno n. unfold tryAcquireAt.
  rewrite refill_exact by assumption. fold n.
  cbn [tokens]. destruct (Z.leb_spec n 0); [reflexivity|].
  unfold set_tokens, Int64.sub. cbn [lastTime tokens window rate].
  destruct Hc as ((? & ?) & ?).
  rewrite wrap64_small; [reflexivity|].
  assert (n <= rate l) by (unfold n; lia).
  int64_consts. lia.
Qed.

(** One attempt keeps the configuration and the bounds of the bucket. *)
Lemma attempt_preserves (now : Time) (l : Limiter) :
  configured l -> bucket_ok l -> noOverflow now l ->
  fst (tryAcquireAt now l) <> None /\
  configured (attempt now l) /\ bucket_ok (attempt now l).
Proof.
  intros Hc (Ht0 & Ht1) Hno.
  pose proof (tryAcquireAt_exact now l Hc Ht0 Hno) as E. cbv zeta in E.
  destruct (noOverflow_elapsed now l ltac:(destruct Hc; lia) Hno) as (_ & Hprod).
  destruct Hno as (Hmono & _ & _).
  pose proof (accrued_nonneg (now - lastTime l) l ltac:(lia)
                ltac:(destruct Hc; lia) ltac:(destruct Hc; lia)) as Hacc.
  unfold attempt. rewrite E.
  destruct (Z.leb_spec
              (Z.min (tokens l + accrued (now - lastTime l) l) (rate l)) 0);
    cbn [fst snd]; unfold configured, bucket_ok; cbn [tokens rate window];
    unfold configured in Hc; (split; [discriminate|]); split; lia.
Qed.

Lemma run_preserves (nows : list Time) (l : Limiter) :
  configured l -> bucket_ok l -> steady nows l ->
  configured (run nows l) /\ bucket_ok (run nows l).
Proof.
  revert l. induction nows as [|now nows IH]; intros l Hc Hb Hs.
  - split; assumption.
  - destruct Hs as (Hno & Hs). cbn [run].
    destruct (attempt_preserves now l Hc Hb Hno) as (_ & Hc' & Hb').
    apply IH; assumption.
Qed.

Lemma run_app (xs ys : list Time) (l : Limiter) :
  run (xs ++ ys) l = run ys (run xs l).
Proof.
  revert l. induction xs as [|x xs IH]; intros l; [reflexivity|].
  cbn [app run]. apply IH.
Qed.

Lemma NewAt_ok (r : Z) (w : Duration) (t0 : Time) :
  1 <= r <= Int64.maxInt -> 0 < w ->
  configured (NewAt r w t0) /\ bucket_ok (NewAt r w t0).
Proof.
  intros Hr Hw. unfold configured, bucket_ok, NewAt.
  cbn [tokens rate window]. lia.
Qed.

(** ** When an attempt panics *)

Lemma refill_None (now : Time) (l : Limiter) :
  refill now l = None <-> window l = 0.
Proof.
  unfold refill, Nanoseconds. cbn [window set_lastTime].
  destruct (Int64.div _ (window l)) as [n|] eqn:E.
  - split; [discriminate|]. intros W. rewrite W, div_zero in E. discriminate.
  - apply div_None in E. split; auto.
Qed.

Lemma tryAcquireAt_None (now : Time) (l : Limiter) :
  fst (tryAcquireAt now l) = None <-> window l = 0.
Proof.
  rewrite <- (refill_None now l). unfold tryAcquireAt.
  destruct (refill now l) as [l'|]; [|cbn; tauto].
  destruct (tokens l' <=? 0); cbn; split; discriminate.
Qed.

(** ** One round of Acquire *)

Section AcquireRounds.

Context {C : Type} `{clocker C}.

Lemma tryAcquire_eq (l : Limiter) (c : C) :
  tryAcquire l c =
    (fst (tryAcquireAt (fst (Now c)) l), attempt (fst (Now c)) l, snd (Now c)).
Proof.
  unfold tryAcquire, attempt. destruct (Now c) as [now c'].
  cbn [fst snd]. destruct (tryAcquireAt now l); reflexivity.
Qed.

(** The four ways a round goes, as equations on [Acquire]. *)
Lemma Acquire_panic_try (l : Limiter) (c : C) ctx sched :
  fst (tryAcquireAt (fst (Now c)) l) = None ->
  Acquire l c ctx sched =
    mkOutcome Panicked (attempt (fst (Now c)) l) (snd (Now c)) ctx [].
Proof.
  intros E. destruct sched; cbn [Acquire]; rewrite tryAcquire_eq, E; reflexivity.
Qed.

Lemma Acquire_granted (l : Limiter) (c : C) ctx sched :
  fst (tryAcquireAt (fst (Now c)) l) = Some true ->
  Acquire l c ctx sched =
    mkOutcome (Returned None) (attempt (fst (Now c)) l) (snd (Now c)) ctx
      [evTry true (attempt (fst (Now c)) l)].
Proof.
  intros E. destruct sched; cbn [Acquire]; rewrite tryAcquire_eq, E; reflexivity.
Qed.

Lemma Acquire_panic_div (l : Limiter) (c : C) ctx sched :
  fst (tryAcquireAt (fst (Now c)) l) = Some false ->
  Int64.div (window l) (rate l) = None ->
  Acquire l c ctx sched =
    mkOutcome Panicked (attempt (fst (Now c)) l) (snd (Now c)) ctx
      [evTry false (attempt (fst (Now c)) l)].
Proof.
  intros E D.
  destruct (tryAcquireAt_frame (fst (Now c)) l) as (Hr & Hw & _).
  destruct sched; cbn [Acquire]; rewrite tryAcquire_eq, E, Hr, Hw, D;
    reflexivity.
Qed.

Lemma Acquire_blocked (l : Limiter) (c : C) ctx d :
  fst (tryAcquireAt (fst (Now c)) l) = Some false ->
  Int64.div (window l) (rate l) = Some d ->
  Acquire l c ctx [] =
    mkOutcome Blocked (attempt (fst (Now c)) l) (After d (snd (Now c))) ctx
      [evTry false (attempt (fst (Now c)) l); evAfter d].
Proof.
  intros E D.
  destruct (tryAcquireAt_frame (fst (Now c)) l) as (Hr & Hw & _).
  cbn [Acquire]; rewrite tryAcquire_eq, E, Hr, Hw, D; reflexivity.
Qed.

Lemma Acquire_cancelled (l : Limiter) (c : C) ctx d e sched :
  fst (tryAcquireAt (fst (Now c)) l) = Some false ->
  Int64.div (window l) (rate l) = Some d ->
  Acquire l c ctx (ctxDone e :: sched) =
    mkOutcome (Returned (Err (cancelWith e ctx)))
      (attempt (fst (Now c)) l) (After d (snd (Now c))) (cancelWith e ctx)
      [evTry false (attempt (fst (Now c)) l); evAfter d; evDone].
Proof.
  intros E D.
  destruct (tryAcquireAt_frame (fst (Now c)) l) as (Hr & Hw & _).
  cbn [Acquire]; rewrite tryAcquire_eq, E, Hr, Hw, D; reflexivity.
Qed.

Lemma Acquire_retry (l : Limiter) (c : C) ctx d sched :
  fst (tryAcquireAt (fst (Now c)) l) = Some false ->
  Int64.div (window l) (rate l) = Some d ->
  Acquire l c ctx (timerFired :: sched) =
    emit (evTry false (attempt (fst (Now c)) l))
      (emit (evAfter d)
         (emit evTimer
            (Acquire (attempt (fst (Now c)) l) (After d (snd (Now c))) ctx
               sched))).
Proof.
  intros E D.
  destruct (tryAcquireAt_frame (fst (Now c)) l) as (Hr & Hw & _).
  cbn [Acquire]; rewrite tryAcquire_eq, E, Hr, Hw, D; reflexivity.
Qed.

End AcquireRounds.

(** Splits a goal about [Acquire l c ctx sched] along the rounds; the
    schedule is empty or shows its head. *)
Ltac acquire_round l c :=
  let E := fresh "Etry" in
  let D := fresh "Ediv" in
  let d := fresh "d" in
  destruct (fst (tryAcquireAt (fst (Now c)) l)) as [[|]|] eqn:E;
  [ rewrite (Acquire_granted l c _ _ E)
  | destruct (Int64.div (window l) (rate l)) as [d|] eqn:D;
    [ first [ rewrite (Acquire_blocked l c _ d E D)
            | rewrite (Acquire_cancelled l c _ d _ _ E D)
            | rewrite (Acquire_retry l c _ d _ E D) ]
    | rewrite (Acquire_panic_div l c _ _ E D) ]
  | rewrite (Acquire_panic_try l c _ _ E) ].

(** ** Acquire as a run of attempts *)

Section AcquireRuns.

Context {C : Type} `{clocker C}.

Lemma Acquire_frame (sched : list selected) :
  forall (l : Limiter) (c : C) (ctx : Context),
    rate (limiter (Acquire l c ctx sched)) = rate l /\
    window (limiter (Acquire l c ctx sched)) = window l.
Proof.
  induction sched as [|[e|] sched IH]; intros l c ctx;
    destruct (tryAcquireAt_frame (fst (Now c)) l) as (Hr & Hw & _).
  - acquire_round l c; cbn [limiter]; auto.
  - acquire_round l c; cbn [limiter]; auto.
  - acquire_round l c; cbn [limiter emit]; auto.
    destruct (IH (attempt (fst (Now c)) l) (After d (snd (Now c))) ctx)
      as (IHr & IHw). split; congruence.
Qed.

Lemma Acquire_no_panic (sched : list selected) :
  forall (l : Limiter) (c : C) (ctx : Context),
    rate l <> 0 -> window l <> 0 ->
    result (Acquire l c ctx sched) <> Panicked.
Proof.
  induction sched as [|[e|] sched IH]; intros l c ctx Hr Hw;
    destruct (tryAcquireAt_frame (fst (Now c)) l) as (Er & Ew & _).
  all: acquire_round l c; cbn [result emit]; try discriminate.
  all: try (apply div_None in Ediv; contradiction).
  all: try (apply tryAcquireAt_None in Etry; contradiction).
  apply IH; congruence.
Qed.

(** Without a panic the limiter that [Acquire] leaves is the run of the
    attempts of its trace. *)
Lemma Acquire_run (sched : list selected) :
  forall (l : Limiter) (c : C) (ctx : Context),
    rate l <> 0 -> window l <> 0 ->
    limiter (Acquire l c ctx sched) =
      run (readings (trace (Acquire l c ctx sched))) l.
Proof.
  induction sched as [|[e|] sched IH]; intros l c ctx Hr Hw;
    destruct (tryAcquireAt_frame (fst (Now c)) l) as (Er & Ew & Et).
  all: acquire_round l c;
    cbn [limiter trace emit readings run]; rewrite ?Et; try reflexivity.
  all: try (apply div_None in Ediv; contradiction).
  all: try (apply tryAcquireAt_None in Etry; contradiction).
  apply IH; congruence.
Qed.

End AcquireRuns.

(** * The claims *)

(** ** Construction *)

(** C5. For every capacity [r], window [w] and clock [c], the limiter that
    [New r w c] returns has [tokens = r] (the bucket starts full),
    [lastTime] equal to the reading [clock.Now()] gives at construction, and
    [rate] and [window] equal to the arguments. *)
Theorem New_postcondition {C : Type} `{clocker C} (r : Z) (w : Duration)
    (c : C) :
  tokens (fst (New r w c)) = r /\
  lastTime (fst (New r w c)) = fst (Now c) /\
  rate (fst (New r w c)) = r /\
  window (fst (New r w c)) = w /\
  snd (New r w c) = snd (Now c).
Proof.
  unfold New. destruct (Now c) as [now c']. cbn. repeat split.
Qed.

(** ** The configuration is never written *)

(** C9. Every attempt and every call of [Acquire] (whether it is granted,
    is cancelled, stays blocked or panics) leaves [rate] and [window] as
    they were: the limiter afterwards differs from the one before in
    [lastTime] and [tokens] at most. *)
Theorem configuration_is_immutable {C : Type} `{clocker C} (l : Limiter)
    (c : C) (ctx : Context) (sched : list selected) (now : Time) :
  (let l' := snd (tryAcquireAt now l) in
   l' = mkLimiter (lastTime l') (tokens l') (window l) (rate l)) /\
  (let l' := snd (fst (tryAcquire l c)) in
   l' = mkLimiter (lastTime l') (tokens l') (window l) (rate l)) /\
  (let l' := limiter (Acquire l c ctx sched) in
   l' = mkLimiter (lastTime l') (tokens l') (window l) (rate l)).
Proof.
  assert (R : forall l', rate l' = rate l -> window l' = window l ->
                         l' = mkLimiter (lastTime l') (tokens l')
                                (window l) (rate l)).
  { intros [t n w' r'] Hr Hw. cbn in *. congruence. }
  cbv zeta. repeat split.
  - destruct (tryAcquireAt_frame now l) as (Hr & Hw & _). apply R; assumption.
  - rewrite tryAcquire_eq. cbn [fst snd].
    destruct (tryAcquireAt_frame (fst (Now c)) l) as (Hr & Hw & _).
    apply R; assumption.
  - destruct (Acquire_frame sched l c ctx) as (Hr & Hw). apply R; assumption.
Qed.

(** ** No validation, and the divisions under the precondition *)

(** Without the precondition the divisions do panic: a zero window stops
    the first attempt, a zero rate the first wait. *)
Remark zero_window_panics :
  result (Acquire (NewAt 5 0 0) (newFakeClock 0) Background []) = Panicked.
Proof. reflexivity. Qed.

Remark zero_rate_panics :
  result (Acquire (NewAt 0 Minute 0) (newFakeClock 0) Background []) = Panicked.
Proof. reflexivity. Qed.

(** C8. [New] accepts every capacity and window, the non-positive ones
    too, and stores them as they are: it has no error outcome. For a limiter
    with [1 <= rate] and [0 < window] the divisor of the refill (the
    nanoseconds of [window]) and the divisor of the wait interval ([rate])
    are not zero, no attempt panics, and no call of [Acquire] panics. *)
Theorem no_validation_guarded_divisions {C : Type} `{clocker C} :
  (forall (r : Z) (w : Duration) (c : C),
      fst (New r w c) = mkLimiter (fst (Now c)) r w r) /\
  (forall l : Limiter,
      1 <= rate l -> 0 < window l ->
      Nanoseconds (window l) <> 0 /\ rate l <> 0 /\
      Int64.div (window l) (rate l) <> None /\
      (forall now : Time, fst (tryAcquireAt now l) <> None) /\
      (forall (c : C) (ctx : Context) (sched : list selected),
          result (Acquire l c ctx sched) <> Panicked)).
Proof.
  split.
  - intros r w c. unfold New, NewAt. destruct (Now c); reflexivity.
  - intros l Hr Hw. unfold Nanoseconds. repeat split; try lia.
    + rewrite div_None. lia.
    + intros now. rewrite tryAcquireAt_None. lia.
    + intros c ctx sched. apply Acquire_no_panic; lia.
Qed.

Lemma no_validation_guarded_divisions_witness :
  fst (New (-3) (-7) (newFakeClock 0)) = mkLimiter 0 (-3) (-7) (-3) /\
  Int64.div Minute 5 <> None /\
  fst (tryAcquireAt 42 (NewAt 5 Minute 0)) <> None /\
  result (Acquire (NewAt 5 Minute 0) (newFakeClock 0) Background
            [timerFired; ctxDone Canceled]) <> Panicked.
Proof.
  destruct (@no_validation_guarded_divisions fakeclock _) as (HNew & Hdiv).
  split; [exact (HNew (-3) (-7) (newFakeClock 0))|].
  destruct (Hdiv (NewAt 5 Minute 0) ltac:(cbn; lia) ltac:(cbn; lia))
    as (_ & _ & Hd & Ht & Ha).
  split; [exact Hd|]. split; [exact (Ht 42)|].
  exact (Ha (newFakeClock 0) Background [timerFired; ctxDone Canceled]).
Defined.

(** ** Cancellation *)

Lemma tryAcquireAt_granted (now : Time) (l l' : Limiter) :
  refill now l = Some l' -> 0 < tokens l' ->
  tryAcquireAt now l = (Some true, set_tokens (tokens l' - 1) l').
Proof.
  intros E Hpos. unfold tryAcquireAt. rewrite E.
  destruct (Z.leb_spec (tokens l') 0); [lia|].
  apply refill_fields in E. destruct E as (_ & _ & _ & _ & M).
  unfold Int64.sub. rewrite wrap64_small; [reflexivity|].
  int64_consts. lia.
Qed.

(** C10. The context is looked at only after a failed attempt: when the
    refill at the first reading leaves a token, [Acquire] returns nil and
    takes that token although the context was cancelled (with any reason
    [e]) before the call, whatever the schedule; the cancellation case is
    never selected. *)
Theorem granted_although_cancelled {C : Type} `{clocker C} (l l' : Limiter)
    (c : C) (ctx : Context) (e : error) (sched : list selected) :
  Err ctx = Some e ->
  refill (fst (Now c)) l = Some l' -> 0 < tokens l' ->
  result (Acquire l c ctx sched) = Returned None /\
  limiter (Acquire l c ctx sched) = set_tokens (tokens l' - 1) l' /\
  ~ In evDone (trace (Acquire l c ctx sched)) /\
  context (Acquire l c ctx sched) = ctx.
Proof.
  intros _ E Hpos.
  pose proof (tryAcquireAt_granted _ _ _ E Hpos) as T.
  rewrite (Acquire_granted l c ctx sched) by (rewrite T; reflexivity).
  unfold attempt. rewrite T. cbn [result limiter trace context snd].
  repeat split. intros [F|[]]. discriminate.
Qed.

(** The second call of TestContextCancel's limiter would be the first
    here: one token, a context cancelled before the call. *)
Lemma granted_although_cancelled_witness :
  result (Acquire (NewAt 1 (15 * Second) 0) (newFakeClock 0)
            (mkContext (Some Canceled)) [ctxDone Canceled]) = Returned None /\
  limiter (Acquire (NewAt 1 (15 * Second) 0) (newFakeClock 0)
            (mkContext (Some Canceled)) [ctxDone Canceled])
    = mkLimiter 0 0 (15 * Second) 1.
Proof.
  assert (R : refill (fst (Now (newFakeClock 0))) (NewAt 1 (15 * Second) 0)
              = Some (NewAt 1 (15 * Second) 0)) by (vm_compute; reflexivity).
  assert (P : 0 < tokens (NewAt 1 (15 * Second) 0)) by (cbn; lia).
  destruct (granted_although_cancelled (NewAt 1 (15 * Second) 0)
              (NewAt 1 (15 * Second) 0) (newFakeClock 0)
              (mkContext (Some Canceled)) Canceled [ctxDone Canceled]
              eq_refl R P) as (Hres & Hlim & _).
  split; [exact Hres | exact Hlim].
Defined.

Lemma cancelWith_Err (e : error) (ctx : Context) :
  exists e', Err (cancelWith e ctx) = Some e' /\
             (forall e0, Err ctx = Some e0 -> e' = e0) /\
             (Err ctx = None -> e' = e).
Proof.
  unfold cancelWith. destruct (Err ctx) as [e0|] eqn:E.
  - exists e0. rewrite E. repeat split; congruence.
  - exists e. cbn. repeat split; congruence.
Qed.

(** C4, as stated, at the first call of TestContextCancel, on the package
    clock: the signal has fired before the call, hence before any attempt
    succeeds, and [Acquire] returns nil whatever the schedule. *)
Lemma cancelled_before_call_returns_nil :
  Err (mkContext (Some Canceled)) <> None /\
  forall sched,
    result (Acquire (fst (New 1 (15 * Second) (mkPkgclock 0 [3; 7])))
              (snd (New 1 (15 * Second) (mkPkgclock 0 [3; 7])))
              (mkContext (Some Canceled)) sched) = Returned None.
Proof.
  split; [discriminate|]. intros sched.
  destruct sched; reflexivity.
Qed.

Section Cancellation.

Context {C : Type} `{clocker C}.

Lemma Acquire_error_iff_done (sched : list selected) :
  forall (l : Limiter) (c : C) (ctx : Context),
    (exists e, result (Acquire l c ctx sched) = Returned (Some e)) <->
    In evDone (trace (Acquire l c ctx sched)).
Proof.
  induction sched as [|[e|] sched IH]; intros l c ctx.
  all: acquire_round l c; cbn [result trace emit In].
  all: try (split; [intros (e' & F); discriminate
                   | intros F; repeat destruct F as [F|F]; try discriminate;
                     contradiction]).
  - destruct (cancelWith_Err e ctx) as (e' & -> & _).
    split; [intros _; auto | intros _; eauto].
  - rewrite IH. split; [auto|].
    intros F; repeat destruct F as [F|F]; try discriminate; assumption.
Qed.

Lemma Acquire_error_is_Err (sched : list selected) :
  forall (l : Limiter) (c : C) (ctx : Context) (e : error),
    result (Acquire l c ctx sched) = Returned (Some e) ->
    Err (context (Acquire l c ctx sched)) = Some e /\
    (forall e0, Err ctx = Some e0 -> e = e0).
Proof.
  induction sched as [|[e1|] sched IH]; intros l c ctx e.
  all: acquire_round l c; cbn [result context emit]; try discriminate.
  - destruct (cancelWith_Err e1 ctx) as (e' & E & Hold & _).
    rewrite E. intros F. injection F as <-. auto.
  - apply IH.
Qed.

Lemma peel_done (x : event) (xs pre post : list event) :
  x :: xs = pre ++ evDone :: post -> x <> evDone ->
  exists pre', pre = x :: pre' /\ xs = pre' ++ evDone :: post.
Proof.
  intros E Hx. destruct pre as [|y pre]; cbn [app] in E.
  - injection E as -> _. contradiction.
  - injection E as -> E. exists pre. auto.
Qed.

(** The cancellation case ends the trace; before it come the failed
    attempt that left the limiter as it is returned, and its wait. *)
Lemma Acquire_done_is_last (sched : list selected) :
  forall (l : Limiter) (c : C) (ctx : Context) (pre post : list event),
    trace (Acquire l c ctx sched) = pre ++ evDone :: post ->
    post = [] /\
    exists pre' d,
      pre = pre' ++ [evTry false (limiter (Acquire l c ctx sched)); evAfter d].
Proof.
  induction sched as [|[e|] sched IH]; intros l c ctx pre post.
  all: acquire_round l c; cbn [trace limiter emit]; intros E.
  all: repeat (apply peel_done in E; [|discriminate];
               let p := fresh "pre" in destruct E as (p & -> & E)).
  all: try (exfalso; exact (app_cons_not_nil _ _ _ E)).
  - destruct pre as [|y pre]; cbn [app] in E.
    + injection E as <-. split; [reflexivity|]. exists [], d. reflexivity.
    + injection E as _ E. exfalso. exact (app_cons_not_nil _ _ _ E).
  - destruct (IH _ _ _ _ _ E) as (Hpost & pre' & d' & ->).
    split; [assumption|].
    exists (evTry false (attempt (fst (Now c)) l) :: evAfter d :: evTimer :: pre'),
      d'. reflexivity.
Qed.

End Cancellation.

(** C4 (amended). [Acquire] returns a non-nil error exactly when a [select]
    that follows a failed attempt takes the cancellation case. The error is
    then what [ctx.Err()] returns, the reason the context already had if it
    was cancelled before. The cancellation case is the last event of the
    call: it comes right after the failed attempt and its [clock.After], and
    the limiter returned is the one that attempt left. *)
Theorem cancellation_is_the_only_error {C : Type} `{clocker C} (l : Limiter)
    (c : C) (ctx : Context) (sched : list selected) :
  ((exists e, result (Acquire l c ctx sched) = Returned (Some e)) <->
   In evDone (trace (Acquire l c ctx sched))) /\
  (forall e, result (Acquire l c ctx sched) = Returned (Some e) ->
             Err (context (Acquire l c ctx sched)) = Some e /\
             (forall e0, Err ctx = Some e0 -> e = e0)) /\
  (forall pre post,
      trace (Acquire l c ctx sched) = pre ++ evDone :: post ->
      post = [] /\
      exists pre' d,
        pre = pre' ++ [evTry false (limiter (Acquire l c ctx sched));
                       evAfter d]).
Proof.
  split; [apply Acquire_error_iff_done|].
  split; [apply Acquire_error_is_Err | apply Acquire_done_is_last].
Qed.

(** ** The wait interval *)

Lemma cons_eq_app {A : Type} (x y : A) (xs pre post : list A) :
  x :: xs = pre ++ y :: post ->
  (pre = [] /\ x = y /\ xs = post) \/
  (exists pre', pre = x :: pre' /\ xs = pre' ++ y :: post).
Proof.
  intros E. destruct pre as [|z pre]; cbn [app] in E; injection E as -> E.
  - left. auto.
  - right. exists pre. auto.
Qed.

Section Waits.

Context {C : Type} `{clocker C}.

Lemma Acquire_after_durations (sched : list selected) :
  forall (l : Limiter) (c : C) (ctx : Context) (d0 d : Duration),
    Int64.div (window l) (rate l) = Some d0 ->
    In (evAfter d) (trace (Acquire l c ctx sched)) -> d = d0.
Proof.
  induction sched as [|[e|] sched IH]; intros l c ctx d0 d' D;
    destruct (tryAcquireAt_frame (fst (Now c)) l) as (Er & Ew & _).
  all: acquire_round l c; cbn [trace emit In]; intros F.
  all: repeat (destruct F as [F|F]; try discriminate); try contradiction.
  all: try (injection F as <-; congruence).
  apply (IH _ _ _ d0 d') in F; [assumption|]. rewrite Er, Ew, Ediv. exact D.
Qed.

Lemma Acquire_failed_then_after (sched : list selected) :
  forall (l : Limiter) (c : C) (ctx : Context) (d0 : Duration)
         (pre post : list event) (l' : Limiter),
    Int64.div (window l) (rate l) = Some d0 ->
    trace (Acquire l c ctx sched) = pre ++ evTry false l' :: post ->
    exists post', post = evAfter d0 :: post'.
Proof.
  induction sched as [|[e|] sched IH]; intros l c ctx d0 pre post l' D;
    destruct (tryAcquireAt_frame (fst (Now c)) l) as (Er & Ew & _).
  all: acquire_round l c; cbn [trace emit]; intros E.
  all: try congruence.
  all: try (exfalso; exact (app_cons_not_nil _ _ _ E)).
  all: apply cons_eq_app in E;
    destruct E as [(-> & E1 & <-) | (p1 & -> & E)];
    [ try discriminate; replace d0 with d by congruence; eauto | ].
  all: try (exfalso; exact (app_cons_not_nil _ _ _ E)).
  all: apply cons_eq_app in E;
    destruct E as [(-> & E1 & <-) | (p2 & -> & E)]; [discriminate|].
  all: try (exfalso; exact (app_cons_not_nil _ _ _ E)).
  all: apply cons_eq_app in E;
    destruct E as [(-> & E1 & <-) | (p3 & -> & E)]; [discriminate|].
  all: try (exfalso; exact (app_cons_not_nil _ _ _ E)).
  apply (IH _ _ _ d0 _ _ _) in E; [assumption|]. rewrite Er, Ew, Ediv. exact D.
Qed.

End Waits.

(** C6. For a limiter with [1 <= rate] and a window in the 64-bit range,
    every duration that [Acquire] passes to [clock.After] is the quotient
    [window / rate] (Go's integer division), and every failed attempt is
    followed at once by [clock.After] with that duration, the timer that
    the [select] races against the cancellation. *)
Theorem wait_interval {C : Type} `{clocker C} (l : Limiter) (c : C)
    (ctx : Context) (sched : list selected) :
  1 <= rate l -> Int64.inRange (window l) ->
  (forall d, In (evAfter d) (trace (Acquire l c ctx sched)) ->
             d = Z.quot (window l) (rate l)) /\
  (forall pre post l',
      trace (Acquire l c ctx sched) = pre ++ evTry false l' :: post ->
      exists post', post = evAfter (Z.quot (window l) (rate l)) :: post').
Proof.
  intros Hr Hw.
  assert (D : Int64.div (window l) (rate l)
              = Some (Z.quot (window l) (rate l))).
  { rewrite div_nonzero by lia. f_equal. apply wrap64_small.
    destruct (Z_le_gt_dec 0 (window l)) as [Hpos|Hneg].
    - pose proof (Z.quot_pos (window l) (rate l) Hpos ltac:(lia)).
      assert (Z.quot (window l) (rate l) <= window l).
      { rewrite Z.quot_div_nonneg by lia.
        apply Z.div_le_upper_bound; nia. }
      int64_consts. lia.
    - assert (E : Z.quot (window l) (rate l)
                  = - Z.quot (- window l) (rate l)).
      { rewrite Z.quot_opp_l by lia. lia. }
      pose proof (Z.quot_pos (- window l) (rate l) ltac:(lia) ltac:(lia)).
      assert (Z.quot (- window l) (rate l) <= - window l).
      { rewrite Z.quot_div_nonneg by lia.
        apply Z.div_le_upper_bound; nia. }
      int64_consts. lia. }
  split.
  - intros d. apply Acquire_after_durations. exact D.
  - intros pre post l'. apply Acquire_failed_then_after. exact D.
Qed.

(** The sixth call of TestNewLimiter: the wait is a fifth of a minute. *)
Lemma wait_interval_witness :
  1 <= rate (mkLimiter 0 0 Minute 5) /\
  Int64.inRange (window (mkLimiter 0 0 Minute 5)) /\
  12 * Second = Z.quot (window (mkLimiter 0 0 Minute 5))
                       (rate (mkLimiter 0 0 Minute 5)).
Proof.
  assert (R : 1 <= rate (mkLimiter 0 0 Minute 5)) by (cbn; lia).
  assert (W : Int64.inRange (window (mkLimiter 0 0 Minute 5)))
    by (vm_compute; split; discriminate).
  assert (I : In (evAfter (12 * Second))
                (trace (Acquire (mkLimiter 0 0 Minute 5) (newFakeClock 0)
                          Background [timerFired])))
    by (vm_compute; right; left; reflexivity).
  split; [exact R|]. split; [exact W|].
  exact (proj1 (wait_interval (mkLimiter 0 0 Minute 5) (newFakeClock 0)
                  Background [timerFired] R W) (12 * Second) I).
Defined.

(** ** Grants at one instant, with the fake clock *)

(** An attempt at the instant of the previous one adds nothing. *)
Lemma tryAcquireAt_same_instant (l : Limiter) :
  window l <> 0 -> Int64.inRange (tokens l) -> tokens l <= rate l ->
  tryAcquireAt (lastTime l) l =
    if tokens l <=? 0 then (Some false, l)
    else (Some true, set_tokens (tokens l - 1) l).
Proof.
  intros Hw Ht Hr.
  assert (E : refill (lastTime l) l = Some l).
  { unfold refill, Sub, Nanoseconds, Int64.mul, Int64.add.
    cbn [set_lastTime lastTime tokens window rate].
    replace (Z.max Int64.minInt (Z.min Int64.maxInt (lastTime l - lastTime l)))
      with 0 by (int64_consts; lia).
    rewrite Z.mul_0_l, (wrap64_small 0) by (int64_consts; lia).
    rewrite div_nonzero by assumption.
    rewrite Z.quot_0_l by assumption.
    rewrite (wrap64_small 0) by (int64_consts; lia).
    rewrite Z.add_0_r, wrap64_small by assumption.
    unfold set_tokens. cbn [lastTime tokens window rate].
    rewrite Z.min_l by assumption. destruct l; reflexivity. }
  unfold tryAcquireAt. rewrite E.
  destruct (Z.leb_spec (tokens l) 0); [reflexivity|].
  unfold Int64.sub. rewrite wrap64_small; [reflexivity|].
  int64_consts. lia.
Qed.

Lemma Acquire_afterCalled_sticky (sched : list selected) :
  forall (l : Limiter) (fc : fakeclock) (ctx : Context),
    afterCalled fc = true ->
    afterCalled (clockOf (Acquire l fc ctx sched)) = true.
Proof.
  induction sched as [|[e|] sched IH]; intros l fc ctx Hfc.
  all: acquire_round l fc; cbn [clockOf emit]; try assumption; try reflexivity.
  apply IH. reflexivity.
Qed.

(** With a token in the bucket and the clock where the last attempt left
    it, [Acquire] returns at once and [clock.After] is not called. *)
Lemma Acquire_token_at_hand (l : Limiter) (fc : fakeclock) (ctx : Context)
    (sched : list selected) :
  lastTime l = fakeNow fc -> window l <> 0 ->
  0 < tokens l <= rate l -> rate l <= Int64.maxInt ->
  Acquire l fc ctx sched =
    mkOutcome (Returned None) (set_tokens (tokens l - 1) l)
      (mkFakeclock true (afterCalled fc) (fakeNow fc)) ctx
      [evTry true (set_tokens (tokens l - 1) l)].
Proof.
  intros Hl Hw Ht Hr.
  assert (T : tryAcquireAt (fst (Now fc)) l
              = (Some true, set_tokens (tokens l - 1) l)).
  { cbn [Now fakeclock_clocker fakeclock_Now fst]. rewrite <- Hl.
    rewrite tryAcquireAt_same_instant;
      [ | assumption | int64_consts; lia | lia ].
    destruct (Z.leb_spec (tokens l) 0); [lia | reflexivity]. }
  rewrite (Acquire_granted l fc ctx sched) by (rewrite T; reflexivity).
  unfold attempt. rewrite T. reflexivity.
Qed.

(** With an empty bucket and no time passed the first attempt fails and the
    wait is set up, whatever the schedule does next. *)
Lemma Acquire_empty_bucket (l : Limiter) (fc : fakeclock) (ctx : Context)
    (sched : list selected) :
  lastTime l = fakeNow fc -> window l <> 0 -> tokens l = 0 -> 1 <= rate l ->
  afterCalled (clockOf (Acquire l fc ctx sched)) = true /\
  exists d tr, trace (Acquire l fc ctx sched) = evTry false l :: evAfter d :: tr.
Proof.
  intros Hl Hw Ht Hr.
  assert (T : tryAcquireAt (fst (Now fc)) l = (Some false, l)).
  { cbn [Now fakeclock_clocker fakeclock_Now fst]. rewrite <- Hl.
    rewrite tryAcquireAt_same_instant;
      [ | assumption | rewrite Ht; int64_consts; lia | lia ].
    rewrite Ht. reflexivity. }
  assert (A : attempt (fst (Now fc)) l = l) by (unfold attempt; rewrite T; reflexivity).
  destruct sched as [|[e|] sched]; acquire_round l fc.
  all: try (rewrite T in Etry; discriminate).
  all: try (apply div_None in Ediv; lia).
  all: rewrite ?A; cbn [clockOf trace emit].
  - split; [reflexivity | eauto].
  - split; [reflexivity | eauto].
  - split; [apply Acquire_afterCalled_sticky; reflexivity | eauto].
Qed.

Lemma grants_then_wait (k : nat) :
  forall (calls : list (Context * list selected)) (l : Limiter)
         (fc : fakeclock),
    lastTime l = fakeNow fc -> window l <> 0 -> tokens l = Z.of_nat k ->
    tokens l <= rate l -> 1 <= rate l <= Int64.maxInt ->
    afterCalled fc = false -> length calls = S k ->
    length (AcquireMany calls l fc) = S k /\
    (forall i o, (i < k)%nat -> nth_error (AcquireMany calls l fc) i = Some o ->
                 result o = Returned None /\
                 afterCalled (clockOf o) = false /\
                 forall d, ~ In (evAfter d) (trace o)) /\
    (forall o, nth_error (AcquireMany calls l fc) k = Some o ->
               afterCalled (clockOf o) = true /\
               exists l' d tr, trace o = evTry false l' :: evAfter d :: tr).
Proof.
  induction k as [|k IH]; intros calls l fc Hl Hw Ht Hle Hr Hfc Hlen.
  - destruct calls as [|[ctx sched] [|? ?]]; try discriminate.
    cbn [AcquireMany].
    destruct (Acquire_empty_bucket l fc ctx sched Hl Hw Ht ltac:(lia))
      as (Ha & d & tr & Htr).
    assert (L : forall o : outcome fakeclock,
               match result o with Returned _ => [o] | _ => [o] end = [o])
      by (intros o; destruct (result o); reflexivity).
    rewrite L. split; [reflexivity|]. split.
    + intros i o Hi. lia.
    + intros o E. cbn in E. injection E as <-. split; [exact Ha | eauto].
  - destruct calls as [|[ctx sched] calls]; [discriminate|].
    cbn [length] in Hlen. injection Hlen as Hlen.
    cbn [AcquireMany].
    rewrite (Acquire_token_at_hand l fc ctx sched Hl Hw ltac:(lia) ltac:(lia)).
    cbn [result limiter clockOf].
    set (l' := set_tokens (tokens l - 1) l).
    set (fc' := mkFakeclock true (afterCalled fc) (fakeNow fc)).
    destruct (IH calls l' fc') as (IHlen & IHgrant & IHwait);
      try (subst l' fc'; cbn [lastTime tokens window rate set_tokens
                                afterCalled fakeNow]; try assumption; lia).
    split; [cbn [length]; congruence|]. split.
    + intros [|i] o Hi E; cbn [nth_error] in E.
      * injection E as <-. cbn [result clockOf trace afterCalled].
        repeat split; try assumption.
        intros d [F|[]]. discriminate.
      * apply (IHgrant i o); [lia | exact E].
    + intros o E. cbn [nth_error] in E. apply IHwait. exact E.
Qed.

(** C3. A limiter is constructed with capacity [n >= 1] (and a window that
    is not zero) on a fake clock on which [After] was not called, and
    [n + 1] calls of [Acquire] follow with no advance of the clock in
    between, each with any context and any schedule. All [n + 1] calls are
    made; each of the first [n] returns nil, leaves [afterCalled] false and
    has no [clock.After] in its trace; the last one fails its first attempt
    and calls [clock.After] right then, before any further attempt. *)
Theorem immediate_grants_then_wait (n : nat) (w : Duration) (fc : fakeclock)
    (calls : list (Context * list selected)) :
  (1 <= n)%nat -> Z.of_nat n <= Int64.maxInt -> w <> 0 ->
  afterCalled fc = false -> length calls = S n ->
  let l := fst (New (Z.of_nat n) w fc) in
  let c := snd (New (Z.of_nat n) w fc) in
  length (AcquireMany calls l c) = S n /\
  (forall i o, (i < n)%nat -> nth_error (AcquireMany calls l c) i = Some o ->
               result o = Returned None /\
               afterCalled (clockOf o) = false /\
               forall d, ~ In (evAfter d) (trace o)) /\
  (forall o, nth_error (AcquireMany calls l c) n = Some o ->
             afterCalled (clockOf o) = true /\
             exists l' d tr, trace o = evTry false l' :: evAfter d :: tr).
Proof.
  intros Hn Hmax Hw Hfc Hlen l c.
  apply grants_then_wait; subst l c;
    cbn [New Now fakeclock_clocker fakeclock_Now fst snd NewAt
           lastTime tokens window rate fakeNow afterCalled];
    try assumption; try reflexivity; lia.
Qed.

(** The scenario of the specification: five tokens a minute, six calls on
    the fake clock; the sixth waits twelve seconds and is then granted. *)
Remark sixth_call_waits_twelve_seconds :
  map (fun o => (result o, trace o))
      (skipn 5 (AcquireMany (repeat (Background, [timerFired]) 6)
                  (fst (New 5 Minute (newFakeClock 0)))
                  (snd (New 5 Minute (newFakeClock 0))))) =
    [(Returned None,
      [evTry false (mkLimiter 0 0 Minute 5); evAfter (12 * Second); evTimer;
       evTry true (mkLimiter (12 * Second) 0 Minute 5)])].
Proof. vm_compute. reflexivity. Qed.

(** TestNewLimiter: five calls are granted without a wait, the sixth
    waits. *)
Lemma immediate_grants_then_wait_witness :
  length (AcquireMany (repeat (Background, [timerFired]) 6)
            (fst (New 5 Minute (newFakeClock 0)))
            (snd (New 5 Minute (newFakeClock 0)))) = 6%nat /\
  (forall o,
      nth_error (AcquireMany (repeat (Background, [timerFired]) 6)
                   (fst (New 5 Minute (newFakeClock 0)))
                   (snd (New 5 Minute (newFakeClock 0)))) 4 = Some o ->
      result o = Returned None /\ afterCalled (clockOf o) = false) /\
  (forall o,
      nth_error (AcquireMany (repeat (Background, [timerFired]) 6)
                   (fst (New 5 Minute (newFakeClock 0)))
                   (snd (New 5 Minute (newFakeClock 0)))) 5 = Some o ->
      afterCalled (clockOf o) = true).
Proof.
  assert (H1 : (1 <= 5)%nat) by lia.
  assert (H2 : Z.of_nat 5 <= Int64.maxInt) by (vm_compute; discriminate).
  assert (H3 : Minute <> 0) by discriminate.
  destruct (immediate_grants_then_wait 5 Minute (newFakeClock 0)
              (repeat (Background, [timerFired]) 6) H1 H2 H3 eq_refl eq_refl)
    as (Hlen & Hgrant & Hwait).
  split; [exact Hlen|]. split.
  - intros o E. destruct (Hgrant 4%nat o ltac:(lia) E) as (R & A & _). auto.
  - intros o E. exact (proj1 (Hwait o E)).
Defined.

(** ** Attempts in a row at one instant *)

(** The mutex makes the attempts of concurrent callers happen one after the
    other; whatever their order, [m] attempts at the instant of
    construction are granted [min m n] times on a bucket of [n]. *)
Lemma grants_same_instant (m : nat) :
  forall (k : nat) (l : Limiter),
    window l <> 0 -> tokens l = Z.of_nat k ->
    tokens l <= rate l -> rate l <= Int64.maxInt ->
    grants (repeat (lastTime l) m) l = Nat.min m k.
Proof.
  induction m as [|m IH]; intros k l Hw Ht Hle Hr; [reflexivity|].
  cbn [repeat grants]. unfold attempt.
  rewrite tryAcquireAt_same_instant;
    [ | assumption | int64_consts; lia | assumption ].
  destruct (Z.leb_spec (tokens l) 0) as [Hz|Hpos]; cbn [fst snd].
  - assert (k = O) by lia. subst k.
    rewrite (IH O l) by assumption. rewrite Nat.min_0_r. reflexivity.
  - destruct k as [|k]; [lia|].
    change (lastTime l) with (lastTime (set_tokens (tokens l - 1) l)).
    rewrite (IH k); cbn [set_tokens tokens window rate]; try assumption; lia.
Qed.

(** X5. On a limiter fresh from [New] with capacity [n] (and a window that
    is not zero), [m] attempts made at the instant of construction, in
    whatever order the mutex admits them, are granted [min m n] times. *)
Corollary grants_after_New (m n : nat) (w : Duration) (t0 : Time) :
  w <> 0 -> Z.of_nat n <= Int64.maxInt ->
  grants (repeat t0 m) (NewAt (Z.of_nat n) w t0) = Nat.min m n.
Proof.
  intros Hw Hn.
  apply (grants_same_instant m n (NewAt (Z.of_nat n) w t0));
    cbn [NewAt tokens window rate]; try assumption; lia.
Qed.

(** ** The bounds of the bucket *)

(** C1, as stated, at two runs of one attempt after [New]. The clock reads
    two minutes less than at construction: five tokens become minus five.
    The clock reads 9224 seconds more, on a limiter of a million tokens per
    second: the product of the elapsed nanoseconds and the rate leaves the
    64 bits and the bucket ends far below zero. *)
Lemma tokens_leave_the_bounds :
  (tokens (run [0 - 2 * Minute] (NewAt 5 Minute 0)) = -5 /\
   ~ bucket_ok (run [0 - 2 * Minute] (NewAt 5 Minute 0))) /\
  (tokens (run [9224 * Second] (NewAt 1000000 Second 0)) = -9221744073 /\
   ~ bucket_ok (run [9224 * Second] (NewAt 1000000 Second 0))).
Proof.
  split; (split; [vm_compute; reflexivity|]);
    intros (Hlo & _); vm_compute in Hlo; apply Hlo; reflexivity.
Qed.

Lemma reachable_invariant (r : Z) (w : Duration) (l : Limiter) :
  1 <= r <= Int64.maxInt -> 0 < w -> reachable r w l ->
  configured l /\ bucket_ok l /\ rate l = r /\ window l = w.
Proof.
  intros Hr Hw R. induction R as [t0 | l now R IH Hno | C K l c ctx sched R IH Hs].
  - destruct (NewAt_ok r w t0 Hr Hw). auto.
  - destruct IH as (Hc & Hb & Er & Ew).
    destruct (attempt_preserves now l Hc Hb Hno) as (_ & Hc' & Hb').
    destruct (tryAcquireAt_frame now l) as (Er' & Ew' & _).
    split; [exact Hc'|]. split; [exact Hb'|]. split; congruence.
  - destruct IH as (Hc & Hb & Er & Ew).
    destruct (Acquire_frame sched l c ctx) as (Er' & Ew').
    rewrite Acquire_run by lia.
    destruct (run_preserves _ l Hc Hb Hs) as (Hc' & Hb').
    rewrite <- Acquire_run in Hc', Hb' by lia.
    rewrite <- Acquire_run by lia.
    split; [exact Hc'|]. split; [exact Hb'|]. split; congruence.
Qed.

(** C1 (amended). A limiter is constructed with capacity [1 <= r] and
    window [0 < w], and any number of attempts and calls of [Acquire]
    follow, where at every attempt the clock reads no less than at the
    previous one and the refill stays within 64 bits ([noOverflow]). Then
    after the construction and after every attempt [0 <= tokens <= r]. *)
Theorem capacity_bound (r : Z) (w : Duration) (l : Limiter) :
  1 <= r <= Int64.maxInt -> 0 < w -> reachable r w l ->
  0 <= tokens l <= r.
Proof.
  intros Hr Hw R.
  destruct (reachable_invariant r w l Hr Hw R) as (_ & Hb & Er & _).
  unfold bucket_ok in Hb. lia.
Qed.

(** Five tokens a minute: one attempt after twelve seconds, then a call of
    [Acquire] on a clock that reads later still. *)
Lemma capacity_bound_witness :
  0 <= tokens (limiter (Acquire (attempt (12 * Second) (NewAt 5 Minute 0))
                          (newFakeClock (20 * Second)) Background
                          [timerFired])) <= 5.
Proof.
  assert (Hr : 1 <= 5 <= Int64.maxInt) by (vm_compute; split; discriminate).
  assert (Hw : 0 < Minute) by reflexivity.
  assert (N : noOverflow (12 * Second) (NewAt 5 Minute 0))
    by (vm_compute; repeat split; discriminate).
  assert (S : steady
                (readings
                   (trace (Acquire (attempt (12 * Second) (NewAt 5 Minute 0))
                             (newFakeClock (20 * Second)) Background
                             [timerFired])))
                (attempt (12 * Second) (NewAt 5 Minute 0)))
    by (vm_compute; repeat split; discriminate).
  exact (capacity_bound 5 Minute _ Hr Hw
           (reach_Acquire 5 Minute fakeclock _ _ _ _ _
              (reach_tryAcquire 5 Minute _ _ (reach_New 5 Minute 0) N) S)).
Defined.

(** ** The arithmetic of the refill *)

(** C2, as stated, at two refills of a limiter fresh from [New]. The clock
    reads two minutes less than at construction: the bucket of five is left
    with a debt of five. The clock reads exactly one window more, on a
    limiter of ten million tokens an hour: the product leaves the 64 bits,
    [-248191] tokens are added instead of ten million, and the bucket is
    not full. *)
Lemma refill_off_the_exact_sum :
  (exists l', refill (0 - 2 * Minute) (NewAt 5 Minute 0) = Some l' /\
              tokens l' = -5) /\
  (exists l', refill (0 + Hour) (NewAt 10000000 Hour 0) = Some l' /\
              tokens l' = 10000000 - 248191 /\ tokens l' <> 10000000 /\
              Z.min (10000000 + (Hour * 10000000) / Hour) 10000000
                = 10000000).
Proof.
  split.
  - eexists. split; [vm_compute; reflexivity | reflexivity].
  - eexists. split; [vm_compute; reflexivity|].
    split; [reflexivity|]. split; [discriminate | reflexivity].
Qed.

(** The remainder of a division is not kept: three attempts three
    nanoseconds apart accrue nothing where one attempt after nine
    nanoseconds accrues two tokens (two tokens per seven nanoseconds, the
    bucket emptied first). *)
Remark fraction_is_dropped :
  tokens (run [0; 0; 3; 6; 9] (NewAt 2 7 0)) = 0 /\
  tokens (run [0; 0; 9] (NewAt 2 7 0)) = 1.
Proof. split; vm_compute; reflexivity. Qed.

(** C2 (amended). On an attempt at a reading [now] not before [lastTime],
    on a limiter with [1 <= rate], [0 < window] and no debt, and with the
    product [elapsed * rate] and the sum of the tokens within 64 bits
    ([noOverflow]): the refill sets [lastTime] to [now] and the tokens to
    the old tokens plus [floor (elapsed * rate / window)], cut at [rate];
    nothing else is kept, so no fraction of a token survives the call; the
    bucket after the attempt has no debt; and when [elapsed] is exactly the
    window the refill fills the bucket to [rate]. *)
Theorem refill_arithmetic (now : Time) (l : Limiter) :
  configured l -> 0 <= tokens l -> noOverflow now l ->
  refill now l =
    Some (mkLimiter now
            (Z.min (tokens l + ((now - lastTime l) * rate l) / window l)
                   (rate l))
            (window l) (rate l)) /\
  0 <= tokens (attempt now l) /\
  (now - lastTime l = window l ->
   refill now l = Some (mkLimiter now (rate l) (window l) (rate l))).
Proof.
  intros Hc Ht Hno.
  pose proof (refill_exact now l Hc Ht Hno) as E. unfold accrued in E.
  split; [exact E|]. split.
  - pose proof (tryAcquireAt_exact now l Hc Ht Hno) as T. cbv zeta in T.
    unfold attempt. rewrite T.
    destruct Hc as ((Hr & _) & Hw). destruct Hno as (Hmono & _ & _).
    pose proof (accrued_nonneg (now - lastTime l) l ltac:(lia) ltac:(lia) Hw).
    destruct (Z.leb_spec
                (Z.min (tokens l + accrued (now - lastTime l) l) (rate l)) 0);
      cbn [snd tokens]; lia.
  - intros Hwin. rewrite E, Hwin. destruct Hc as ((Hr & _) & Hw).
    rewrite Z.mul_comm, Z.div_mul by lia.
    rewrite Z.min_r by lia. reflexivity.
Qed.

(** The bucket of five a minute, empty, one minute later. *)
Lemma refill_arithmetic_witness :
  refill Minute (mkLimiter 0 0 Minute 5) = Some (mkLimiter Minute 5 Minute 5).
Proof.
  assert (Hc : configured (mkLimiter 0 0 Minute 5))
    by (vm_compute; repeat split; discriminate).
  assert (Ht : 0 <= tokens (mkLimiter 0 0 Minute 5)) by (cbn; lia).
  assert (Hno : noOverflow Minute (mkLimiter 0 0 Minute 5))
    by (vm_compute; repeat split; discriminate).
  destruct (refill_arithmetic Minute (mkLimiter 0 0 Minute 5) Hc Ht Hno)
    as (_ & _ & Hfull).
  exact (Hfull eq_refl).
Defined.

(** * Further properties of the code *)

(** ** One attempt, whatever the clock reads *)

(** X1. An attempt that completes leaves at most [rate] tokens, for every
    reading and every earlier state, wrap-around included. When it is
    granted the bucket holds between zero and [rate - 1] tokens; when it is
    refused the bucket holds no token. A token count below zero is only
    ever left by a refused attempt. *)
Theorem attempt_bounds (now : Time) (l : Limiter) (granted : bool) :
  fst (tryAcquireAt now l) = Some granted ->
  tokens (attempt now l) <= rate l /\
  (if granted then 0 <= tokens (attempt now l) <= rate l - 1
   else tokens (attempt now l) <= 0).
Proof.
  unfold attempt, tryAcquireAt.
  destruct (refill now l) as [l'|] eqn:E; [|discriminate].
  apply refill_fields in E. destruct E as (_ & _ & _ & U & M).
  destruct (Z.leb_spec (tokens l') 0) as [Hz|Hpos]; cbn [fst snd];
    intros G; injection G as <-.
  - split; lia.
  - cbn [set_tokens tokens]. unfold Int64.sub.
    rewrite wrap64_small by (int64_consts; lia). lia.
Qed.

(** A granted attempt after the product has wrapped: the clock is far
    ahead, and the bucket is still within its bounds. *)
Lemma attempt_bounds_witness :
  fst (tryAcquireAt (18446745 * 1000000) (NewAt 1000000 Second 0)) = Some true /\
  0 <= tokens (attempt (18446745 * 1000000) (NewAt 1000000 Second 0))
    <= 1000000 - 1.
Proof.
  assert (G : fst (tryAcquireAt (18446745 * 1000000) (NewAt 1000000 Second 0))
              = Some true) by (vm_compute; reflexivity).
  split; [exact G|].
  exact (proj2 (attempt_bounds (18446745 * 1000000) (NewAt 1000000 Second 0)
                  true G)).
Defined.

(** ** One attempt in exact arithmetic *)

(** X2. Within 64 bits and with a clock that did not go back, an attempt is
    granted exactly when the old tokens plus the accrued ones are positive.
    On an empty bucket this is exactly when [window <= elapsed * rate]: not
    before one token's worth of time has passed, and from then on. *)
Theorem grant_criterion (now : Time) (l : Limiter) :
  configured l -> 0 <= tokens l -> noOverflow now l ->
  (fst (tryAcquireAt now l) = Some true <->
   0 < tokens l + ((now - lastTime l) * rate l) / window l) /\
  (tokens l = 0 ->
   (fst (tryAcquireAt now l) = Some true <->
    window l <= (now - lastTime l) * rate l)).
Proof.
  intros Hc Ht Hno.
  pose proof (tryAcquireAt_exact now l Hc Ht Hno) as T. cbv zeta in T.
  destruct (noOverflow_elapsed now l ltac:(destruct Hc; lia) Hno)
    as (_ & Hprod).
  destruct Hc as ((Hr & _) & Hw).
  assert (G : fst (tryAcquireAt now l) = Some true <->
              0 < tokens l + ((now - lastTime l) * rate l) / window l).
  { rewrite T. unfold accrued.
    destruct (Z.leb_spec
                (Z.min (tokens l + (now - lastTime l) * rate l / window l)
                       (rate l)) 0); cbn [fst]; split; intros F;
      try discriminate; try reflexivity; lia. }
  split; [exact G|].
  intros Hz. rewrite G, Hz, Z.add_0_l. split.
  - intros P. destruct (Z_lt_le_dec ((now - lastTime l) * rate l) (window l))
      as [Hlt|Hle]; [|exact Hle].
    rewrite Z.div_small in P by lia. lia.
  - intros Hle. apply Z.div_str_pos. lia.
Qed.

Lemma grant_criterion_witness :
  fst (tryAcquireAt (12 * Second) (mkLimiter 0 0 Minute 5)) = Some true /\
  ~ fst (tryAcquireAt (12 * Second - 1) (mkLimiter 0 0 Minute 5)) = Some true.
Proof.
  assert (Hc : configured (mkLimiter 0 0 Minute 5))
    by (vm_compute; repeat split; discriminate).
  assert (Ht : 0 <= tokens (mkLimiter 0 0 Minute 5)) by (cbn; lia).
  assert (N1 : noOverflow (12 * Second) (mkLimiter 0 0 Minute 5))
    by (vm_compute; repeat split; discriminate).
  assert (N2 : noOverflow (12 * Second - 1) (mkLimiter 0 0 Minute 5))
    by (vm_compute; repeat split; discriminate).
  assert (W1 : window (mkLimiter 0 0 Minute 5)
               <= (12 * Second - lastTime (mkLimiter 0 0 Minute 5))
                  * rate (mkLimiter 0 0 Minute 5))
    by (vm_compute; discriminate).
  assert (W2 : ~ window (mkLimiter 0 0 Minute 5)
                 <= (12 * Second - 1 - lastTime (mkLimiter 0 0 Minute 5))
                    * rate (mkLimiter 0 0 Minute 5))
    by (vm_compute; intros F; apply F; reflexivity).
  split.
  - exact (proj2 (proj2 (grant_criterion _ _ Hc Ht N1) eq_refl) W1).
  - intros F.
    exact (W2 (proj1 (proj2 (grant_criterion _ _ Hc Ht N2) eq_refl) F)).
Defined.

(** X3. After a pause of at least one window (within 64 bits) the next
    attempt is granted and leaves [rate - 1] tokens, whatever the bucket
    held before. *)
Theorem full_after_a_window (now : Time) (l : Limiter) :
  configured l -> 0 <= tokens l -> noOverflow now l ->
  window l <= now - lastTime l ->
  tryAcquireAt now l =
    (Some true, mkLimiter now (rate l - 1) (window l) (rate l)).
Proof.
  intros Hc Ht Hno Hidle.
  pose proof (tryAcquireAt_exact now l Hc Ht Hno) as T. cbv zeta in T.
  destruct Hc as ((Hr & _) & Hw).
  assert (A : rate l <= accrued (now - lastTime l) l).
  { unfold accrued. apply Z.div_le_lower_bound; [assumption | nia]. }
  rewrite T. rewrite Z.min_r by lia.
  destruct (Z.leb_spec (rate l) 0); [lia | reflexivity].
Qed.

Lemma full_after_a_window_witness :
  tryAcquireAt (90 * Second) (mkLimiter 0 2 Minute 5)
    = (Some true, mkLimiter (90 * Second) 4 Minute 5).
Proof.
  assert (Hc : configured (mkLimiter 0 2 Minute 5))
    by (vm_compute; repeat split; discriminate).
  assert (Ht : 0 <= tokens (mkLimiter 0 2 Minute 5)) by (cbn; lia).
  assert (N : noOverflow (90 * Second) (mkLimiter 0 2 Minute 5))
    by (vm_compute; repeat split; discriminate).
  assert (I : window (mkLimiter 0 2 Minute 5)
              <= 90 * Second - lastTime (mkLimiter 0 2 Minute 5))
    by (vm_compute; discriminate).
  exact (full_after_a_window _ _ Hc Ht N I).
Defined.

Lemma grants_after_New_witness :
  grants (repeat 0 8) (NewAt (Z.of_nat 5) Minute 0) = Nat.min 8 5.
Proof.
  assert (Hw : Minute <> 0) by discriminate.
  assert (Hn : Z.of_nat 5 <= Int64.maxInt) by (vm_compute; discriminate).
  exact (grants_after_New 8 5 Minute 0 Hw Hn).
Defined.

(** ** What a run can grant *)

Lemma last_cons {A : Type} (a d : A) (xs : list A) :
  last (a :: xs) d = last xs a.
Proof.
  revert a d. induction xs as [|x xs IH]; intros a d; [reflexivity|].
  change (last (a :: x :: xs) d) with (last (x :: xs) d).
  rewrite (IH x d), (IH x a). reflexivity.
Qed.

Lemma div_add_le (a b w : Z) : 0 < w -> a / w + b / w <= (a + b) / w.
Proof.
  intros Hw. apply Z.div_le_lower_bound; [assumption|].
  pose proof (Z.mul_div_le a w Hw). pose proof (Z.mul_div_le b w Hw). lia.
Qed.

(** X4. The limit the bucket enforces. Over a run of attempts with a clock
    that does not go back and no overflow, the number of grants is at most
    the tokens at the start plus [floor (span * rate / window)], where
    [span] is the time from the last attempt before the run to the last
    attempt of the run. *)
Theorem grants_bounded (nows : list Time) (l : Limiter) :
  configured l -> bucket_ok l -> steady nows l ->
  Z.of_nat (grants nows l) <=
    tokens l + ((last nows (lastTime l) - lastTime l) * rate l) / window l.
Proof.
  revert l. induction nows as [|now nows IH]; intros l Hc Hb Hs.
  - cbn [grants last]. rewrite Z.sub_diag, Z.mul_0_l, Z.div_0_l
      by (destruct Hc; lia).
    destruct Hb. cbn. lia.
  - destruct Hs as (Hno & Hs).
    destruct (attempt_preserves now l Hc Hb Hno) as (_ & Hc' & Hb').
    destruct (tryAcquireAt_frame now l) as (Er & Ew & El).
    specialize (IH (attempt now l) Hc' Hb' Hs).
    rewrite Er, Ew, El in IH.
    rewrite last_cons.
    pose proof (tryAcquireAt_exact now l Hc (proj1 Hb) Hno) as T.
    cbv zeta in T. unfold accrued in T.
    assert (Hw : 0 < window l) by (destruct Hc; assumption).
    pose proof (div_add_le ((now - lastTime l) * rate l)
                  ((last nows now - now) * rate l) (window l) Hw) as S.
    replace ((now - lastTime l) * rate l + (last nows now - now) * rate l)
      with ((last nows now - lastTime l) * rate l) in S by lia.
    cbn [grants]. unfold attempt in IH |- *. rewrite T in IH |- *.
    destruct (Z.leb_spec
                (Z.min (tokens l + (now - lastTime l) * rate l / window l)
                       (rate l)) 0);
      cbn [fst snd tokens] in IH |- *; lia.
Qed.

(** Five tokens a minute, eight attempts over twenty-four seconds: at most
    seven grants. *)
Lemma grants_bounded_witness :
  Z.of_nat (grants [0; 0; 0; 0; 0; 0; 12 * Second; 24 * Second]
              (NewAt 5 Minute 0)) <= 7.
Proof.
  assert (Hc : configured (NewAt 5 Minute 0))
    by (vm_compute; repeat split; discriminate).
  assert (Hb : bucket_ok (NewAt 5 Minute 0))
    by (vm_compute; split; discriminate).
  assert (Hs : steady [0; 0; 0; 0; 0; 0; 12 * Second; 24 * Second]
                 (NewAt 5 Minute 0))
    by (vm_compute; repeat split; discriminate).
  exact (grants_bounded _ _ Hc Hb Hs).
Defined.

(** X6. A bound on the inputs alone that keeps the refill within 64 bits:
    on a limiter within its bounds, a reading not before [lastTime] with
    [(elapsed + 1) * rate <= 2^63 - 1] gives [noOverflow]. *)
Theorem noOverflow_from_inputs (now : Time) (l : Limiter) :
  configured l -> bucket_ok l -> lastTime l <= now ->
  (now - lastTime l + 1) * rate l <= Int64.maxInt ->
  noOverflow now l.
Proof.
  intros ((Hr & _) & Hw) (Ht0 & Ht1) Hmono Hbound.
  replace ((now - lastTime l + 1) * rate l)
    with ((now - lastTime l) * rate l + rate l) in Hbound by ring.
  assert (P : 0 <= (now - lastTime l) * rate l) by nia.
  unfold noOverflow. split; [assumption|]. split; [lia|].
  unfold accrued.
  assert ((now - lastTime l) * rate l / window l <= (now - lastTime l) * rate l).
  { apply Z.div_le_upper_bound; [assumption | nia]. }
  lia.
Qed.

Lemma noOverflow_from_inputs_witness :
  noOverflow (9222 * Second) (NewAt 1000000 Second 0).
Proof.
  assert (Hc : configured (NewAt 1000000 Second 0))
    by (vm_compute; repeat split; discriminate).
  assert (Hb : bucket_ok (NewAt 1000000 Second 0))
    by (vm_compute; split; discriminate).
  assert (Hm : lastTime (NewAt 1000000 Second 0) <= 9222 * Second)
    by (vm_compute; discriminate).
  assert (Hx : (9222 * Second - lastTime (NewAt 1000000 Second 0) + 1)
               * rate (NewAt 1000000 Second 0) <= Int64.maxInt)
    by (vm_compute; discriminate).
  exact (noOverflow_from_inputs _ _ Hc Hb Hm Hx).
Defined.

(** ** The fake clock *)

(** X7. After any sequence of [Now], [After] and [Advance] on a fake clock
    the fake time is the initial time plus the durations passed to [After]
    and [Advance]; [Now] never moves it and reads it. [nowCalled] is set by
    [Now] only, [afterCalled] by [After] only: [Advance] moves the time
    without counting as a wait. *)
Theorem fake_clock_accounting (ops : list fakecall) (fc : fakeclock) :
  fakeNow (drive ops fc) = fakeNow fc + total (map moves ops) /\
  fst (Now (drive ops fc)) = fakeNow fc + total (map moves ops) /\
  nowCalled (drive ops fc) = nowCalled fc || existsb isNow ops /\
  afterCalled (drive ops fc) = afterCalled fc || existsb isAfter ops.
Proof.
  revert fc. induction ops as [|op ops IH]; intros fc.
  - cbn. rewrite !orb_false_r. repeat split; lia.
  - change (drive (op :: ops) fc) with (drive ops (call fc op)).
    destruct (IH (call fc op)) as (Ht & Hn & Hnc & Hac).
    rewrite Hn, Ht, Hnc, Hac. cbn [map total existsb].
    destruct op as [|d|d]; cbn [call fakeclock_Now fakeclock_After Advance
                                  snd fakeNow nowCalled afterCalled moves
                                  isNow isAfter]; unfold Add;
      rewrite ?orb_true_l, ?orb_true_r, ?orb_false_l;
      repeat split; try lia; try reflexivity.
    all: rewrite ?orb_assoc; try reflexivity.
Qed.

(** ** Acquire on the fake clock *)

(** X8. A call of [Acquire] on the fake clock leaves the fake time at the
    initial time plus the durations it passed to [clock.After], has called
    [Now], and has [afterCalled] set exactly when it was set before or the
    call passed through a wait: the flag the tests read is a sound and
    complete sign that the call blocked. *)
Theorem Acquire_fake_clock (sched : list selected) (l : Limiter)
    (fc : fakeclock) (ctx : Context) :
  fakeNow (clockOf (Acquire l fc ctx sched))
    = fakeNow fc + waited (trace (Acquire l fc ctx sched)) /\
  nowCalled (clockOf (Acquire l fc ctx sched)) = true /\
  afterCalled (clockOf (Acquire l fc ctx sched))
    = afterCalled fc || hasWait (trace (Acquire l fc ctx sched)).
Proof.
  revert l fc ctx. induction sched as [|[e|] sched IH]; intros l fc ctx.
  all: acquire_round l fc;
    cbn [clockOf trace emit waited hasWait Now After fakeclock_clocker
           fakeclock_Now fakeclock_After snd fakeNow nowCalled afterCalled];
    unfold Add; rewrite ?orb_false_r, ?orb_true_r;
    try (repeat split; try reflexivity; lia).
  destruct (IH (attempt (fst (Now fc)) l) (After d (snd (Now fc))) ctx)
    as (Ht & Hn & Ha).
  cbn [Now After fakeclock_clocker fakeclock_Now fakeclock_After snd fst
         fakeNow nowCalled afterCalled] in Ht, Hn, Ha |- *.
  unfold Add in Ht. rewrite Ht, Hn, Ha. repeat split; try reflexivity. lia.
Qed.

Lemma wait_is_quotient (l : Limiter) :
  configured l -> window l <= Int64.maxInt ->
  Int64.div (window l) (rate l) = Some (window l / rate l).
Proof.
  intros ((Hr & _) & Hw) Hmax. apply div_floor; lia.
Qed.

(** An attempt on an empty bucket before one token's worth of time. *)
Lemma attempt_too_early (now : Time) (l : Limiter) :
  configured l -> window l <= Int64.maxInt -> tokens l = 0 ->
  lastTime l <= now -> (now - lastTime l) * rate l < window l ->
  tryAcquireAt now l = (Some false, mkLimiter now 0 (window l) (rate l)).
Proof.
  intros Hc Hmax Ht Hmono Hearly.
  assert (Hr : 1 <= rate l) by (destruct Hc; lia).
  assert (A : accrued (now - lastTime l) l = 0)
    by (unfold accrued; apply Z.div_small; nia).
  assert (Hno : noOverflow now l).
  { unfold noOverflow. rewrite A, Ht. int64_consts. lia. }
  pose proof (tryAcquireAt_exact now l Hc ltac:(lia) Hno) as T.
  cbv zeta in T. rewrite A, Ht in T. rewrite Z.min_l in T by lia.
  exact T.
Qed.

Lemma starved_loop (sched : list selected) :
  forall (l : Limiter) (fc : fakeclock) (ctx : Context),
    configured l -> window l <= Int64.maxInt -> tokens l = 0 ->
    (window l / rate l) * rate l < window l ->
    0 <= fakeNow fc - lastTime l <= window l / rate l ->
    result (Acquire l fc ctx sched) <> Returned None /\
    tokens (limiter (Acquire l fc ctx sched)) = 0 /\
    takes (trace (Acquire l fc ctx sched)) = O.
Proof.
  induction sched as [|[e|] sched IH]; intros l fc ctx Hc Hmax Ht Hrem Hgap.
  all: assert (Hr : 1 <= rate l) by (destruct Hc; lia).
  all: assert (T : tryAcquireAt (fst (Now fc)) l
                   = (Some false,
                      mkLimiter (fakeNow fc) 0 (window l) (rate l)))
    by (apply attempt_too_early; cbn [Now fakeclock_clocker fakeclock_Now fst];
        try assumption; try lia; nia).
  all: pose proof (wait_is_quotient l Hc Hmax) as D.
  all: acquire_round l fc; try (rewrite T in Etry; discriminate);
    try congruence.
  all: unfold attempt; rewrite T;
    cbn [result limiter trace emit snd tokens takes].
  - repeat split; discriminate.
  - destruct (cancelWith_Err e ctx) as (e' & -> & _).
    repeat split; discriminate.
  - assert (Ed : d = window l / rate l) by congruence. subst d.
    apply IH; cbn [lastTime tokens window rate]; try assumption;
      try reflexivity.
    cbn [After Now fakeclock_clocker fakeclock_Now fakeclock_After snd
           fakeNow]. unfold Add.
    assert (0 <= window l / rate l)
      by (apply Z.div_pos; destruct Hc; lia).
    lia.
Qed.

(** X9. On the fake clock a waiting caller can starve. When [rate] does not
    divide [window], each wait of [window / rate] advances the fake time by
    less than one token's worth, and every attempt discards what accrued:
    from an empty bucket [Acquire] is never granted, however often the
    timer fires; it waits on, or returns the cancellation. *)
Theorem fake_clock_starves (sched : list selected) (l : Limiter)
    (fc : fakeclock) (ctx : Context) :
  configured l -> window l <= Int64.maxInt -> tokens l = 0 ->
  lastTime l = fakeNow fc ->
  (window l / rate l) * rate l < window l ->
  result (Acquire l fc ctx sched) <> Returned None /\
  tokens (limiter (Acquire l fc ctx sched)) = 0 /\
  takes (trace (Acquire l fc ctx sched)) = O.
Proof.
  intros Hc Hmax Ht Hl Hrem.
  apply starved_loop; try assumption.
  assert (0 <= window l / rate l) by (apply Z.div_pos; destruct Hc; lia).
  lia.
Qed.

(** Seven tokens a minute: after a hundred waits the caller still waits. *)
Lemma fake_clock_starves_witness :
  result (Acquire (mkLimiter 0 0 Minute 7) (newFakeClock 0) Background
            (repeat timerFired 100)) <> Returned None.
Proof.
  assert (Hc : configured (mkLimiter 0 0 Minute 7))
    by (vm_compute; repeat split; discriminate).
  assert (Hm : window (mkLimiter 0 0 Minute 7) <= Int64.maxInt)
    by (vm_compute; discriminate).
  assert (Hr : (window (mkLimiter 0 0 Minute 7) / rate (mkLimiter 0 0 Minute 7))
               * rate (mkLimiter 0 0 Minute 7)
               < window (mkLimiter 0 0 Minute 7))
    by (vm_compute; reflexivity).
  exact (proj1 (fake_clock_starves (repeat timerFired 100)
                  (mkLimiter 0 0 Minute 7) (newFakeClock 0) Background
                  Hc Hm eq_refl eq_refl Hr)).
Defined.

(** X10. On the fake clock, when [rate] divides [window], one wait is
    enough: from an empty bucket, with the timer winning the first race,
    [Acquire] fails once, waits [window / rate], is granted at the second
    attempt and returns nil with the fake time advanced by that wait. *)
Theorem fake_clock_one_wait (sched : list selected) (l : Limiter)
    (fc : fakeclock) (ctx : Context) :
  configured l -> window l <= Int64.maxInt -> tokens l = 0 ->
  lastTime l = fakeNow fc ->
  (window l / rate l) * rate l = window l ->
  Acquire l fc ctx (timerFired :: sched) =
    mkOutcome (Returned None)
      (mkLimiter (fakeNow fc + window l / rate l) 0 (window l) (rate l))
      (mkFakeclock true true (fakeNow fc + window l / rate l)) ctx
      [evTry false l; evAfter (window l / rate l); evTimer;
       evTry true
         (mkLimiter (fakeNow fc + window l / rate l) 0 (window l) (rate l))].
Proof.
  intros Hc Hmax Ht Hl Hdiv.
  assert (Hr : 1 <= rate l) by (destruct Hc; lia).
  assert (Hw : 0 < window l) by (destruct Hc; lia).
  assert (T1 : tryAcquireAt (fst (Now fc)) l = (Some false, l)).
  { cbn [Now fakeclock_clocker fakeclock_Now fst]. rewrite <- Hl.
    rewrite tryAcquireAt_same_instant;
      [ | lia | rewrite Ht; int64_consts; lia | lia ].
    rewrite Ht. reflexivity. }
  pose proof (wait_is_quotient l Hc Hmax) as D.
  rewrite (Acquire_retry l fc ctx (window l / rate l) sched)
    by (rewrite ?T1; auto).
  unfold attempt. rewrite T1. cbn [snd].
  set (fc' := After (window l / rate l) (snd (Now fc))).
  assert (Hfc' : fst (Now fc') = lastTime l + window l / rate l).
  { subst fc'. cbn. unfold Add. lia. }
  assert (Hno : noOverflow (fst (Now fc')) l).
  { unfold noOverflow, accrued. rewrite Hfc'.
    replace (lastTime l + window l / rate l - lastTime l)
      with (window l / rate l) by lia.
    rewrite Hdiv, Z.div_same, Ht by lia.
    assert (0 <= window l / rate l) by (apply Z.div_pos; lia).
    int64_consts. lia. }
  pose proof (tryAcquireAt_exact (fst (Now fc')) l Hc ltac:(lia) Hno) as T2.
  cbv zeta in T2. unfold accrued in T2.
  assert (E : fst (Now fc') - lastTime l = window l / rate l) by lia.
  rewrite E, Hdiv, Z.div_same, Ht in T2 by lia.
  rewrite Z.min_l in T2 by lia.
  change (0 + 1 <=? 0) with false in T2. cbv iota in T2.
  rewrite (Acquire_granted l fc' ctx sched) by (rewrite T2; reflexivity).
  unfold attempt. rewrite T2.
  cbn [snd emit result limiter clockOf context trace].
  subst fc'.
  cbn [Now After fakeclock_clocker fakeclock_Now fakeclock_After fst snd
         fakeNow nowCalled afterCalled].
  unfold Add. reflexivity.
Qed.

(** The sixth call of TestNewLimiter, from the theorem. *)
Lemma fake_clock_one_wait_witness :
  result (Acquire (mkLimiter 0 0 Minute 5) (newFakeClock 0) Background
            [timerFired]) = Returned None /\
  fakeNow (clockOf (Acquire (mkLimiter 0 0 Minute 5) (newFakeClock 0)
                      Background [timerFired])) = 12 * Second.
Proof.
  assert (Hc : configured (mkLimiter 0 0 Minute 5))
    by (vm_compute; repeat split; discriminate).
  assert (Hm : window (mkLimiter 0 0 Minute 5) <= Int64.maxInt)
    by (vm_compute; discriminate).
  assert (Hd : (window (mkLimiter 0 0 Minute 5) / rate (mkLimiter 0 0 Minute 5))
               * rate (mkLimiter 0 0 Minute 5)
               = window (mkLimiter 0 0 Minute 5))
    by (vm_compute; reflexivity).
  pose proof (fake_clock_one_wait [] (mkLimiter 0 0 Minute 5)
                (newFakeClock 0) Background Hc Hm eq_refl eq_refl Hd) as E.
  split; [exact (f_equal result E) | exact (f_equal (fun o => fakeNow (clockOf o)) E)].
Defined.

(** ** What Acquire returns *)

Section Returns.

Context {C : Type} `{clocker C}.

Lemma Acquire_timer_only (sched : list selected) :
  forall (l : Limiter) (c : C) (ctx : Context),
    Forall (fun s => s = timerFired) sched ->
    rate l <> 0 -> window l <> 0 ->
    result (Acquire l c ctx sched) = Returned None \/
    (result (Acquire l c ctx sched) = Blocked /\
     length (readings (trace (Acquire l c ctx sched))) = S (length sched)).
Proof.
  induction sched as [|[e|] sched IH]; intros l c ctx Hs Hr Hw;
    destruct (tryAcquireAt_frame (fst (Now c)) l) as (Er & Ew & _).
  all: try (inversion Hs; discriminate).
  all: acquire_round l c; cbn [result trace emit readings length]; auto.
  all: try (apply div_None in Ediv; contradiction).
  all: try (apply tryAcquireAt_None in Etry; contradiction).
  inversion Hs as [|? ? _ Hs']; subst.
  destruct (IH (attempt (fst (Now c)) l) (After d (snd (Now c))) ctx Hs')
    as [G|(B & N)]; try congruence; auto.
Qed.



End Returns.

(** X11. Without a cancellation there is no error. On a limiter whose
    [rate] and [window] are not zero, when the timer wins every race of the
    schedule, [Acquire] either returns nil or is still waiting, having made
    one attempt more than timers have fired. *)
Theorem no_cancellation_no_error {C : Type} `{clocker C}
    (sched : list selected) (l : Limiter) (c : C) (ctx : Context) :
  Forall (fun s => s = timerFired) sched ->
  rate l <> 0 -> window l <> 0 ->
  result (Acquire l c ctx sched) = Returned None \/
  (result (Acquire l c ctx sched) = Blocked /\
   length (readings (trace (Acquire l c ctx sched))) = S (length sched)).
Proof. apply Acquire_timer_only. Qed.

Lemma no_cancellation_no_error_witness :
  result (Acquire (mkLimiter 0 0 Minute 7) (newFakeClock 0) Background
            [timerFired; timerFired]) = Returned None \/
  (result (Acquire (mkLimiter 0 0 Minute 7) (newFakeClock 0) Background
             [timerFired; timerFired]) = Blocked /\
   length (readings (trace (Acquire (mkLimiter 0 0 Minute 7) (newFakeClock 0)
                              Background [timerFired; timerFired])))
     = 3%nat).
Proof.
  assert (Hs : Forall (fun s => s = timerFired) [timerFired; timerFired])
    by (repeat constructor).
  assert (Hr : rate (mkLimiter 0 0 Minute 7) <> 0) by discriminate.
  assert (Hw : window (mkLimiter 0 0 Minute 7) <> 0) by discriminate.
  exact (no_cancellation_no_error [timerFired; timerFired]
           (mkLimiter 0 0 Minute 7) (newFakeClock 0) Background Hs Hr Hw).
Defined.

(** X12. Cancellation after a refusal. When the refill at the first
    reading leaves no token and the cancellation case wins the first race,
    [Acquire] makes that one attempt, sets up one timer with the wait
    interval, and returns the error of the context: the reason it already
    had, or else the reason it is cancelled with. The limiter is as the
    refill left it; no token is taken. *)
Theorem cancelled_after_refusal {C : Type} `{clocker C} (l l' : Limiter)
    (c : C) (ctx : Context) (e : error) (sched : list selected) (d : Duration) :
  refill (fst (Now c)) l = Some l' -> tokens l' <= 0 ->
  Int64.div (window l) (rate l) = Some d ->
  Acquire l c ctx (ctxDone e :: sched) =
    mkOutcome
      (Returned (Some (match Err ctx with Some e0 => e0 | None => e end)))
      l' (After d (snd (Now c))) (cancelWith e ctx)
      [evTry false l'; evAfter d; evDone].
Proof.
  intros R Hz D.
  assert (T : tryAcquireAt (fst (Now c)) l = (Some false, l')).
  { unfold tryAcquireAt. rewrite R.
    destruct (Z.leb_spec (tokens l') 0); [reflexivity | lia]. }
  rewrite (Acquire_cancelled l c ctx d e sched) by (rewrite ?T; auto).
  unfold attempt. rewrite T. cbn [snd]. f_equal. f_equal.
  unfold cancelWith. destruct (Err ctx) as [e0|] eqn:E; [exact E | reflexivity].
Qed.

(** The second call of TestContextCancel. *)
Lemma cancelled_after_refusal_witness :
  result (Acquire (mkLimiter 0 0 (15 * Second) 1) (mkPkgclock 0 [3])
            (mkContext (Some Canceled)) [ctxDone DeadlineExceeded])
    = Returned (Some Canceled).
Proof.
  assert (R : refill (fst (Now (mkPkgclock 0 [3])))
                (mkLimiter 0 0 (15 * Second) 1)
              = Some (mkLimiter 3 0 (15 * Second) 1))
    by (vm_compute; reflexivity).
  assert (Hz : tokens (mkLimiter 3 0 (15 * Second) 1) <= 0) by (cbn; lia).
  assert (D : Int64.div (window (mkLimiter 0 0 (15 * Second) 1))
                (rate (mkLimiter 0 0 (15 * Second) 1))
              = Some (15 * Second)) by (vm_compute; reflexivity).
  exact (f_equal result
           (cancelled_after_refusal (mkLimiter 0 0 (15 * Second) 1)
              (mkLimiter 3 0 (15 * Second) 1) (mkPkgclock 0 [3])
              (mkContext (Some Canceled)) DeadlineExceeded [] (15 * Second)
              R Hz D)).
Defined.


(** X14. After a call of [Acquire] on the fake clock that returns nil, the
    limiter's [lastTime] is the fake time: the next call starts with no
    time elapsed unless the test advances the clock. *)
Theorem nil_leaves_clock_in_step (sched : list selected) (l : Limiter)
    (fc : fakeclock) (ctx : Context) :
  result (Acquire l fc ctx sched) = Returned None ->
  lastTime (limiter (Acquire l fc ctx sched))
    = fakeNow (clockOf (Acquire l fc ctx sched)).
Proof.
  revert l fc ctx. induction sched as [|[e|] sched IH]; intros l fc ctx.
  all: destruct (tryAcquireAt_frame (fst (Now fc)) l) as (_ & _ & Et).
  all: acquire_round l fc; cbn [result limiter clockOf emit];
    try discriminate.
  all: try (intros _; rewrite Et; reflexivity).
  - destruct (cancelWith_Err e ctx) as (e' & -> & _). discriminate.
  - apply IH.
Qed.

Lemma nil_leaves_clock_in_step_witness :
  lastTime (limiter (Acquire (mkLimiter 0 0 Minute 5) (newFakeClock 0)
                       Background [timerFired]))
    = fakeNow (clockOf (Acquire (mkLimiter 0 0 Minute 5) (newFakeClock 0)
                          Background [timerFired])).
Proof.
  assert (R : result (Acquire (mkLimiter 0 0 Minute 5) (newFakeClock 0)
                        Background [timerFired]) = Returned None)
    by (vm_compute; reflexivity).
  exact (nil_leaves_clock_in_step [timerFired] (mkLimiter 0 0 Minute 5)
           (newFakeClock 0) Background R).
Defined.

(** ** Limiters that New should not have built *)

Lemma refused_when_rate_not_positive (now : Time) (l : Limiter) :
  rate l <= 0 -> fst (tryAcquireAt now l) <> Some true.
Proof.
  intros Hr G.
  unfold tryAcquireAt in G.
  destruct (refill now l) as [l'|] eqn:E; [|discriminate].
  apply refill_fields in E. destruct E as (_ & _ & _ & U & _).
  destruct (Z.leb_spec (tokens l') 0); [discriminate | lia].
Qed.

(** X15. A limiter built with a zero rate or a zero window makes every call
    of [Acquire] panic with a division by zero, for every clock, context
    and schedule: with a zero window in the first attempt, with a zero rate
    when the wait interval is computed after the first attempt, which is
    refused. *)
Theorem zero_configuration_panics {C : Type} `{clocker C} (l : Limiter)
    (c : C) (ctx : Context) (sched : list selected) :
  rate l = 0 \/ window l = 0 ->
  result (Acquire l c ctx sched) = Panicked.
Proof.
  intros Hz.
  destruct (Z.eq_dec (window l) 0) as [Hw|Hw].
  - rewrite Acquire_panic_try by (apply tryAcquireAt_None; exact Hw).
    reflexivity.
  - assert (Hr : rate l = 0) by (destruct Hz; [assumption | contradiction]).
    destruct (fst (tryAcquireAt (fst (Now c)) l)) as [[|]|] eqn:E.
    + exfalso. apply (refused_when_rate_not_positive (fst (Now c)) l); [lia|].
      exact E.
    + rewrite (Acquire_panic_div l c ctx sched E)
        by (rewrite Hr; apply div_zero).
      reflexivity.
    + apply tryAcquireAt_None in E. contradiction.
Qed.

Lemma zero_configuration_panics_witness :
  result (Acquire (fst (New 0 Minute (newFakeClock 0)))
            (snd (New 0 Minute (newFakeClock 0))) Background [timerFired])
    = Panicked.
Proof.
  assert (Hz : rate (fst (New 0 Minute (newFakeClock 0))) = 0 \/
               window (fst (New 0 Minute (newFakeClock 0))) = 0)
    by (left; reflexivity).
  exact (zero_configuration_panics _ _ Background [timerFired] Hz).
Defined.

(** X16. A limiter built with a rate that is not positive never grants:
    no attempt takes a token and no call of [Acquire] returns nil, whatever
    the clock reads and however long the caller waits. *)
Theorem nonpositive_rate_never_grants {C : Type} `{clocker C}
    (sched : list selected) (l : Limiter) (c : C) (ctx : Context) :
  rate l <= 0 ->
  result (Acquire l c ctx sched) <> Returned None /\
  forall now, fst (tryAcquireAt now l) <> Some true.
Proof.
  intros Hr. split; [|intros now; apply refused_when_rate_not_positive; exact Hr].
  revert l c ctx Hr.
  induction sched as [|[e|] sched IH]; intros l c ctx Hr;
    destruct (tryAcquireAt_frame (fst (Now c)) l) as (Er & _ & _).
  all: acquire_round l c; cbn [result emit]; try discriminate.
  all: try (exfalso;
            apply (refused_when_rate_not_positive (fst (Now c)) l Hr);
            assumption).
  - destruct (cancelWith_Err e ctx) as (e' & -> & _). discriminate.
  - apply IH. lia.
Qed.

Lemma nonpositive_rate_never_grants_witness :
  result (Acquire (fst (New (-3) Minute (newFakeClock 0)))
            (snd (New (-3) Minute (newFakeClock 0))) Background
            [timerFired; timerFired]) <> Returned None.
Proof.
  assert (Hr : rate (fst (New (-3) Minute (newFakeClock 0))) <= 0)
    by (vm_compute; discriminate).
  exact (proj1 (nonpositive_rate_never_grants [timerFired; timerFired]
                  _ _ Background Hr)).
Defined.
